(** * metadata-scraper: the crawl loop and the metadata extraction pipeline

    A shallow embedding of [src/extractors/utils.py],
    [src/extractors/metadata_parser.py] and [src/runner.py].

    Python [str] values are [string]s whose characters stand for code
    points below 256; [Optional[str]] is [option string]; Python [int] is
    [Z]; the [visited] set is a [gset string]; the [to_visit] deque is a
    list used first-in first-out. *)

From Stdlib Require Import ZArith Ascii String List Bool Lia.
From stdpp Require Import base decidable option list gmap strings.
Import ListNotations.

Local Open Scope string_scope.
Local Open Scope Z_scope.

(** ** Python string primitives *)

Module PyStr.

(** Code point of a character. *)
Definition ord (c : ascii) : N := N_of_ascii c.

(** [str.isspace] on one character, which is also the class [\s] of [re]
    on [str] patterns and the set removed by [str.strip()]: TAB, LF, VT,
    FF, CR, FS, GS, RS, US, SPACE, NEL (0x85) and NBSP (0xA0). *)
Definition isspace (c : ascii) : bool :=
  let n := ord c in
  ((9 <=? n) && (n <=? 13) || (28 <=? n) && (n <=? 32)
   || (n =? 133) || (n =? 160))%N.

Definition is_empty (s : string) : bool :=
  match s with EmptyString => true | String _ _ => false end.

(** [s.lstrip()] *)
Fixpoint lstrip (s : string) : string :=
  match s with
  | EmptyString => EmptyString
  | String c s' => if isspace c then lstrip s' else s
  end.

(** [s.rstrip()] *)
Fixpoint rstrip (s : string) : string :=
  match s with
  | EmptyString => EmptyString
  | String c s' =>
      let r := rstrip s' in
      if isspace c && is_empty r then EmptyString else String c r
  end.

(** [s.strip()] *)
Definition strip (s : string) : string := rstrip (lstrip s).

(** [re.sub(r"\s+", " ", s)]: every maximal run of whitespace becomes one
    space.  [in_run] tells that the previous character belonged to a run
    whose replacement has been emitted already. *)
Fixpoint sub_ws_from (in_run : bool) (s : string) : string :=
  match s with
  | EmptyString => EmptyString
  | String c s' =>
      if isspace c
      then (if in_run then sub_ws_from true s'
            else String " " (sub_ws_from true s'))
      else String c (sub_ws_from false s')
  end.

Definition sub_ws (s : string) : string := sub_ws_from false s.

(** [c in s] for a character [c]. *)
Fixpoint contains (c : ascii) (s : string) : bool :=
  match s with
  | EmptyString => false
  | String d s' => if Ascii.eqb c d then true else contains c s'
  end.

(** [s.split(c, 1)] when [c] occurs in [s]: the text before the first [c]
    and the text after it; without an occurrence, [(s, "")]. *)
Fixpoint split_once (c : ascii) (s : string) : string * string :=
  match s with
  | EmptyString => (EmptyString, EmptyString)
  | String d s' =>
      if Ascii.eqb c d then (EmptyString, s')
      else let '(a, b) := split_once c s' in (String d a, b)
  end.

(** [s.startswith(p)] *)
Fixpoint startswith (p s : string) : bool :=
  match p, s with
  | EmptyString, _ => true
  | String a p', String b s' => Ascii.eqb a b && startswith p' s'
  | String _ _, EmptyString => false
  end.

(** [s[n:]] *)
Fixpoint skip (n : nat) (s : string) : string :=
  match n, s with
  | O, _ => s
  | S k, String _ s' => skip k s'
  | S _, EmptyString => EmptyString
  end.

(** [sep.join(l)] *)
Fixpoint join (sep : string) (l : list string) : string :=
  match l with
  | [] => EmptyString
  | [x] => x
  | x :: rest => x ++ sep ++ join sep rest
  end.

(** The whitespace-separated words of [s], as [s.split()] gives them. *)
Fixpoint words (s : string) : list string :=
  match s with
  | EmptyString => []
  | String c s' =>
      if isspace c then words s'
      else match s' with
           | EmptyString => [String c EmptyString]
           | String c' _ =>
               if isspace c' then String c EmptyString :: words s'
               else match words s' with
                    | w :: ws => String c w :: ws
                    | [] => [String c EmptyString]
                    end
           end
  end.

(** Python truthiness of an [Optional[str]]. *)
Definition truthy (o : option string) : bool :=
  match o with
  | Some s => negb (is_empty s)
  | None => false
  end.

(** [a or b] on [Optional[str]] values. *)
Definition or_else (a b : option string) : option string :=
  if truthy a then a else b.

End PyStr.

(** ** [urllib.parse]: the part of the standard library used by the code

    [urlsplit], [urlparse], [urlunsplit], [urlunparse] and [urldefrag] as
    CPython defines them.  The definitions give the value that is returned.
    [urlsplit] raises [ValueError] only for a network location with a
    malformed bracketed host, and that raise is not part of the model; on a
    text without a bracket it cannot happen. *)

Module Urllib.

Record ParseResult := mkParseResult {
  scheme : string;
  netloc : string;
  path : string;
  params : string;
  query : string;
  fragment : string
}.

Definition is_alpha (c : ascii) : bool :=
  let n := PyStr.ord c in
  ((65 <=? n) && (n <=? 90) || (97 <=? n) && (n <=? 122))%N.

Definition is_digit (c : ascii) : bool :=
  let n := PyStr.ord c in ((48 <=? n) && (n <=? 57))%N.

(** [scheme_chars]: letters, digits and [+-.] *)
Definition scheme_char (c : ascii) : bool :=
  is_alpha c || is_digit c
  || Ascii.eqb c "+" || Ascii.eqb c "-" || Ascii.eqb c ".".

Fixpoint all_chars (p : ascii -> bool) (s : string) : bool :=
  match s with
  | EmptyString => true
  | String c s' => p c && all_chars p s'
  end.

Definition lower_char (c : ascii) : ascii :=
  let n := PyStr.ord c in
  if ((65 <=? n) && (n <=? 90))%N then ascii_of_N (n + 32) else c.

(** [s.lower()] on ASCII text *)
Fixpoint lower (s : string) : string :=
  match s with
  | EmptyString => EmptyString
  | String c s' => String (lower_char c) (lower s')
  end.

(** [url.lstrip(_WHATWG_C0_CONTROL_OR_SPACE)]: code points up to 0x20 *)
Fixpoint lstrip_c0 (s : string) : string :=
  match s with
  | EmptyString => EmptyString
  | String c s' => if (PyStr.ord c <=? 32)%N then lstrip_c0 s' else s
  end.

(** Removal of [_UNSAFE_URL_BYTES_TO_REMOVE]: TAB, CR and LF *)
Fixpoint remove_unsafe (s : string) : string :=
  match s with
  | EmptyString => EmptyString
  | String c s' =>
      let n := PyStr.ord c in
      if ((n =? 9) || (n =? 13) || (n =? 10))%N then remove_unsafe s'
      else String c (remove_unsafe s')
  end.

(** The scheme test of [urlsplit]: a colon at a positive index, a letter
    first, scheme characters up to the colon. *)
Definition split_scheme (url : string) : string * string :=
  if PyStr.contains ":" url then
    let '(pre, post) := PyStr.split_once ":" url in
    match pre with
    | EmptyString => (EmptyString, url)
    | String c _ =>
        if is_alpha c && all_chars scheme_char pre
        then (lower pre, post) else (EmptyString, url)
    end
  else (EmptyString, url).

(** The cut of [_splitnetloc]: at the first of [/], [?], [#] *)
Fixpoint cut_netloc (url : string) : string * string :=
  match url with
  | EmptyString => (EmptyString, EmptyString)
  | String c s' =>
      if Ascii.eqb c "/" || Ascii.eqb c "?" || Ascii.eqb c "#"
      then (EmptyString, url)
      else let '(n, r) := cut_netloc s' in (String c n, r)
  end.

(** [_splitnetloc(url, start)]: [url[start:delim], url[delim:]] *)
Definition _splitnetloc (url : string) (start : nat) : string * string :=
  cut_netloc (PyStr.skip start url).

Definition split_if_contains (c : ascii) (url : string) : string * string :=
  if PyStr.contains c url then PyStr.split_once c url else (url, EmptyString).

(** [urlsplit(url)]: scheme, netloc, path, query, fragment *)
Definition urlsplit (url : string) : ParseResult :=
  let url := remove_unsafe (lstrip_c0 url) in
  let '(scheme, url) := split_scheme url in
  let '(netloc, url) :=
    if PyStr.startswith "//" url then _splitnetloc url 2
    else (EmptyString, url) in
  let '(url, fragment) := split_if_contains "#" url in
  let '(url, query) := split_if_contains "?" url in
  mkParseResult scheme netloc url EmptyString query fragment.

Definition uses_params : list string :=
  [""; "ftp"; "hdl"; "prospero"; "http"; "imap"; "https"; "shttp"; "rtsp";
   "rtspu"; "sip"; "sips"; "mms"; "sftp"; "tel"].

Definition uses_netloc : list string :=
  [""; "ftp"; "http"; "gopher"; "nntp"; "telnet"; "imap"; "wais"; "file";
   "mms"; "https"; "shttp"; "snews"; "prospero"; "rtsp"; "rtspu"; "rsync";
   "svn"; "svn+ssh"; "sftp"; "nfs"; "git"; "git+ssh"; "ws"; "wss"].

Definition in_list (s : string) (l : list string) : bool :=
  existsb (String.eqb s) l.

(** [s.rpartition(c)] keeping the separator with the head: the text up to
    and including the last [c], and the text after it. *)
Fixpoint rsplit_keep (c : ascii) (s : string) : option (string * string) :=
  match s with
  | EmptyString => None
  | String d s' =>
      match rsplit_keep c s' with
      | Some (a, b) => Some (String d a, b)
      | None => if Ascii.eqb c d then Some (String d EmptyString, s') else None
      end
  end.

(** [_splitparams(url)], called when [;] occurs in [url] *)
Definition _splitparams (url : string) : string * string :=
  match rsplit_keep "/" url with
  | Some (dir, base) =>
      if PyStr.contains ";" base
      then let '(a, b) := PyStr.split_once ";" base in (dir ++ a, b)
      else (url, EmptyString)
  | None => PyStr.split_once ";" url
  end.

(** [urlparse(url)] *)
Definition urlparse (url : string) : ParseResult :=
  let r := urlsplit url in
  if in_list (scheme r) uses_params && PyStr.contains ";" (path r)
  then let '(p, prm) := _splitparams (path r) in
       mkParseResult (scheme r) (netloc r) p prm (query r) (fragment r)
  else r.

(** [urlunsplit((scheme, netloc, url, query, fragment))] *)
Definition urlunsplit (scheme netloc url query fragment : string) : string :=
  let url :=
    if negb (PyStr.is_empty netloc)
       || (negb (PyStr.is_empty scheme) && in_list scheme uses_netloc
           && negb (PyStr.startswith "//" url))
    then
      let url :=
        if negb (PyStr.is_empty url) && negb (PyStr.startswith "/" url)
        then "/" ++ url else url in
      "//" ++ netloc ++ url
    else url in
  let url := if negb (PyStr.is_empty scheme) then scheme ++ ":" ++ url else url in
  let url := if negb (PyStr.is_empty query) then url ++ "?" ++ query else url in
  let url := if negb (PyStr.is_empty fragment) then url ++ "#" ++ fragment else url in
  url.

(** [urlunparse((scheme, netloc, url, params, query, fragment))] *)
Definition urlunparse (scheme netloc url params query fragment : string) : string :=
  let url := if negb (PyStr.is_empty params) then url ++ ";" ++ params else url in
  urlunsplit scheme netloc url query fragment.

(** Characters that [urlsplit] keeps, and characters that cannot occur in
    a network location. *)
Definition safe_char (c : ascii) : bool :=
  let n := PyStr.ord c in negb ((n =? 9) || (n =? 13) || (n =? 10))%N.

Definition netloc_char (c : ascii) : bool :=
  negb (Ascii.eqb c "/" || Ascii.eqb c "?" || Ascii.eqb c "#").

(** [urldefrag(url)]: the URL without its fragment, and the fragment *)
Definition urldefrag (url : string) : string * string :=
  if PyStr.contains "#" url then
    let r := urlparse url in
    (urlunparse (scheme r) (netloc r) (path r) (params r) (query r) EmptyString,
     fragment r)
  else (url, EmptyString).

(** [urlparse(url).hostname], from the network location: the text after
    the last [@], up to the first [:] or, with a bracket, between the
    brackets; its ASCII letters lowered up to a [%].  The empty text stands
    for [None]. *)
Definition hostname (netloc : string) : string :=
  let hostinfo := match rsplit_keep "@" netloc with
                  | Some (_, h) => h
                  | None => netloc
                  end in
  let host :=
    if PyStr.contains "[" hostinfo
    then fst (PyStr.split_once "]" (snd (PyStr.split_once "[" hostinfo)))
    else fst (PyStr.split_once ":" hostinfo) in
  if PyStr.contains "%" host
  then let '(name, zone) := PyStr.split_once "%" host in lower name ++ "%" ++ zone
  else lower host.

End Urllib.

(** ** [utils.normalize_url] *)

Definition normalize_url (url : option string) : option string :=
  match url with
  | None => None
  | Some u =>
      if PyStr.is_empty u then None
      else
        let '(url, _frag) := Urllib.urldefrag (PyStr.strip u) in
        let parsed := Urllib.urlparse url in
        if PyStr.is_empty (Urllib.scheme parsed) then None
        else if Urllib.in_list (Urllib.scheme parsed) ["http"; "https"]
                && PyStr.is_empty (Urllib.path parsed)
        then Some (Urllib.scheme parsed ++ "://" ++ Urllib.netloc parsed ++ "/")
        else Some url
  end.

(** ** [metadata_parser._clean_whitespace] *)

Definition _clean_whitespace (text : option string) : option string :=
  if negb (PyStr.truthy text) then text
  else match text with
       | Some t => Some (PyStr.strip (PyStr.sub_ws t))
       | None => None
       end.


(** ** The external capabilities the code consumes *)

(** The parsed document of [bs4]: text nodes and tags with their attributes
    and children.  Comments, scripts and style sheets, which [get_text]
    passes over, are not part of the model. *)
#[warnings="-register-all"]
Inductive node :=
| NavigableString (s : string)
| Tag (name : string) (attrs : list (string * string)) (contents : list node).

(** What [requests] hands back for a GET that did not raise. *)
Record Response := mkResponse {
  resp_text : string;
  resp_url : string;
  status_code : Z
}.

(** Calls the crawl makes to its collaborators, in order.  The list is a
    ghost record of the run: the code itself keeps no such list. *)
Inductive event :=
| Fetch (url : string)
| Extract (url : string)
| Discover (url : string).

(** The collaborators outside the repository.  [None] stands for a raised
    exception.  The transport may answer by what has been asked so far. *)
Class Externals := {
  http_get : list event -> string -> option Response;
  BeautifulSoup : string -> option node;
  readability_summary : string -> option string;
  urljoin : string -> string -> string;
  fnmatch : string -> string -> bool
}.

(** ** [bs4] queries on a parsed document *)

Module Soup.

(** All nodes below [n], in document order. *)
Fixpoint descendants (n : node) : list node :=
  match n with
  | NavigableString _ => []
  | Tag _ _ cs =>
      (fix go (l : list node) : list node :=
         match l with
         | [] => []
         | c :: l' => c :: (descendants c ++ go l')%list
         end) cs
  end.

Definition is_tag (nm : string) (n : node) : bool :=
  match n with
  | Tag nm' _ _ => String.eqb nm nm'
  | NavigableString _ => false
  end.

(** [tag.get(key)] *)
Fixpoint assoc (key : string) (l : list (string * string)) : option string :=
  match l with
  | [] => None
  | (k, v) :: l' => if String.eqb key k then Some v else assoc key l'
  end.

Definition get (n : node) (key : string) : option string :=
  match n with
  | Tag _ attrs _ => assoc key attrs
  | NavigableString _ => None
  end.

Definition has_attr (key value : string) (n : node) : bool :=
  match get n key with
  | Some v => String.eqb v value
  | None => false
  end.

(** [soup.find(nm)] *)
Definition find (soup : node) (nm : string) : option node :=
  List.find (is_tag nm) (descendants soup).

(** [soup.find(nm, attrs={key: value})] *)
Definition find_attrs (soup : node) (nm key value : string) : option node :=
  List.find (fun n => is_tag nm n && has_attr key value n) (descendants soup).

(** [soup.find_all(nm)] *)
Definition find_all (soup : node) (nm : string) : list node :=
  List.filter (is_tag nm) (descendants soup).

(** [soup.find_all(nm, **{key: True})]: tags that carry the attribute *)
Definition find_all_with (soup : node) (nm key : string) : list node :=
  List.filter (fun n => is_tag nm n && bool_decide (is_Some (get n key)))
    (descendants soup).

(** The text nodes below [n], each stripped, the empty ones dropped. *)
Definition stripped_strings (n : node) : list string :=
  List.filter (fun t => negb (PyStr.is_empty t))
    (omap (fun d => match d with
                    | NavigableString t => Some (PyStr.strip t)
                    | Tag _ _ _ => None
                    end) (descendants n)).

(** [n.get_text(separator=" ", strip=True)] *)
Definition get_text (n : node) : string :=
  PyStr.join " " (stripped_strings n).

(** [tag.string]: the single text child, looked for through single
    children. *)
Fixpoint string_of (n : node) : option string :=
  match n with
  | NavigableString t => Some t
  | Tag _ _ [c] => string_of c
  | Tag _ _ _ => None
  end.

End Soup.

(** ** [metadata_parser] *)

(** [if not node: return None]: a found tag is always true in Python *)
Definition _text_or_none (n : option node) : option string :=
  match n with
  | None => None
  | Some n =>
      let txt := Soup.get_text n in
      if PyStr.is_empty txt then None else Some txt
  end.

(** [meta and meta.get("content")] as a condition, with the value *)
Definition meta_content (meta : option node) : option string :=
  match meta with
  | Some m =>
      match Soup.get m "content" with
      | Some c => if PyStr.is_empty c then None else Some c
      | None => None
      end
  | None => None
  end.

Fixpoint _first_meta (soup : node) (names : list string) : option string :=
  match names with
  | [] => None
  | n :: rest =>
      match meta_content (Soup.find_attrs soup "meta" "name" n) with
      | Some c => Some (PyStr.strip c)
      | None =>
          match meta_content (Soup.find_attrs soup "meta" "property" n) with
          | Some c => Some (PyStr.strip c)
          | None => _first_meta soup rest
          end
      end
  end.

(** The record [parse_metadata] returns: a dict with these five keys. *)
Record PageRecord := mkPageRecord {
  rec_url : string;
  rec_title : option string;
  rec_description : option string;
  rec_heading : option string;
  rec_article : option string
}.

Definition social_title_names : list string :=
  ["og:title"; "twitter:title"; "dc.title"].

Definition description_names : list string :=
  ["description"; "og:description"; "twitter:description"].

(** [soup.title.string.strip() if soup.title and soup.title.string else None] *)
Definition title_element_text (soup : node) : option string :=
  match Soup.find soup "title" with
  | Some t =>
      match Soup.string_of t with
      | Some str => if PyStr.is_empty str then None else Some (PyStr.strip str)
      | None => None
      end
  | None => None
  end.

Definition resolve_title (soup : node) : option string :=
  let title :=
    PyStr.or_else (_first_meta soup social_title_names) (title_element_text soup) in
  if negb (PyStr.truthy title) then
    match Soup.find soup "h1" with
    | Some first_h1 => _text_or_none (Some first_h1)
    | None => title
    end
  else title.

Definition resolve_heading (soup : node) : option string :=
  let h :=
    match Soup.find soup "h1" with
    | Some h1 => Some h1
    | None => Soup.find soup "h2"
    end in
  match h with
  | Some h => _text_or_none (Some h)
  | None => None
  end.

(** The [try] block of the article: Readability's summary, parsed again,
    and its visible text; any exception leaves [None]. *)
Definition readability_article `{Externals} (html : string) : option string :=
  match readability_summary html with
  | Some content_html =>
      match BeautifulSoup content_html with
      | Some content_soup => _text_or_none (Some content_soup)
      | None => None
      end
  | None => None
  end.

(** The fallback taken when the first stage left nothing. *)
Definition article_fallback (soup : node) (article : option string) : option string :=
  let main :=
    match Soup.find soup "article" with
    | Some a => Some a
    | None => Soup.find soup "main"
    end in
  match main with
  | Some m => _text_or_none (Some m)
  | None =>
      let paras := List.map Soup.get_text (Soup.find_all soup "p") in
      let paras := List.filter (fun p => negb (PyStr.is_empty p)) paras in
      match paras with
      | [] => article
      | _ :: _ =>
          let joined := PyStr.join " " (firstn 10 paras) in
          if PyStr.is_empty joined then None else Some joined
      end
  end.

Definition resolve_article `{Externals} (html : string) (soup : node) : option string :=
  let article := readability_article html in
  if negb (PyStr.truthy article) then article_fallback soup article else article.

(** [parse_metadata(html, url)]; [None] when the parser raises. *)
Definition parse_metadata `{Externals} (html url : string) : option PageRecord :=
  match BeautifulSoup html with
  | None => None
  | Some soup =>
      let title := resolve_title soup in
      let description := _first_meta soup description_names in
      let heading := resolve_heading soup in
      let article := resolve_article html soup in
      Some {| rec_url := url;
              rec_title := _clean_whitespace title;
              rec_description := _clean_whitespace description;
              rec_heading := _clean_whitespace heading;
              rec_article := _clean_whitespace article |}
  end.

(** ** [utils]: transport, link discovery, glob matching *)

(** [fetch_html(url)]: [(html, final_url, status_code)], or [None] when the
    GET raises or [raise_for_status] does, which it does for every status
    from 400 to 599. *)
Definition fetch_html `{Externals} (history : list event) (url : string)
  : option (string * string * Z) :=
  match http_get history url with
  | None => None
  | Some resp =>
      if (400 <=? status_code resp) && (status_code resp <? 600) then None
      else Some (resp_text resp, resp_url resp, status_code resp)
  end.

Definition skipped_prefixes : list string :=
  ["mailto:"; "tel:"; "javascript:"; "#"].

(** [list(dict.fromkeys(l))]: first occurrences, in order *)
Fixpoint dedup (l : list string) : list string :=
  match l with
  | [] => []
  | x :: rest => x :: List.filter (fun y => negb (String.eqb x y)) (dedup rest)
  end.

(** The body of the loop of [find_links] for one anchor. *)
Definition link_of_anchor `{Externals} (base_url : string) (a : node) : option string :=
  match Soup.get a "href" with
  | None => None
  | Some href =>
      if PyStr.is_empty href then None
      else if existsb (fun p => PyStr.startswith p href) skipped_prefixes then None
      else
        let abs_url := urljoin base_url href in
        match normalize_url (Some abs_url) with
        | Some n => if PyStr.is_empty n then None else Some n
        | None => None
        end
  end.

(** [find_links(html, base_url)]; [None] when the parser raises.  The
    [ValueError] of [urljoin] and [normalize_url] on a malformed bracketed
    host is not modelled: the value is that of the code when the base URL
    and the hrefs are [bracket_free]. *)
Definition find_links `{Externals} (html base_url : string) : option (list string) :=
  match BeautifulSoup html with
  | None => None
  | Some soup =>
      Some (dedup (omap (link_of_anchor base_url) (Soup.find_all_with soup "a" "href")))
  end.

(** [pattern.replace("**", "*")]: left to right, without overlap *)
Fixpoint replace_double_star (s : string) : string :=
  match s with
  | String "*" (String "*" rest) => String "*" (replace_double_star rest)
  | String c rest => String c (replace_double_star rest)
  | EmptyString => EmptyString
  end.

Definition match_any_glob `{Externals} (target : string) (globs : list string) : bool :=
  existsb (fun pattern => fnmatch target (replace_double_star pattern)) globs.

(** ** [runner] *)

(** [delay_seconds] only feeds [time.sleep] and is left out, as is the
    logger. *)
Record CrawlConfig := mkCrawlConfig {
  start_urls : list string;
  scrape_url_globs : list string;
  pagination_url_globs : list string;
  ignore_url_globs : list string;
  max_requests_per_crawl : Z;
  output_file : string
}.

Definition should_ignore `{Externals} (url : string) (ignore_globs : list string) : bool :=
  match_any_glob url ignore_globs.

(** The three strings ['detail'], ['pagination'], ['unknown']. *)
Inductive page_type := detail | pagination | unknown.

Definition page_type_eqb (a b : page_type) : bool :=
  match a, b with
  | detail, detail | pagination, pagination | unknown, unknown => true
  | _, _ => false
  end.

Definition classify_url `{Externals} (url : string) (scrape_globs pagination_globs : list string)
  : page_type :=
  if match_any_glob url scrape_globs then detail
  else if match_any_glob url pagination_globs then pagination
  else unknown.

(** A frontier entry: the URL and its referrer. *)
Definition entry : Type := string * option string.

(** The local variables of [crawl], with the ghost list of calls. *)
Record state := mkState {
  to_visit : list entry;
  visited : gset string;
  results : list PageRecord;
  num_requests : Z;
  trace : list event
}.

(** The seeding loop. *)
Definition seed (urls : list string) : list entry :=
  omap (fun u =>
          match normalize_url (Some u) with
          | Some norm => if PyStr.is_empty norm then None else Some (norm, None)
          | None => None
          end) urls.

Definition init (cfg : CrawlConfig) : state :=
  {| to_visit := seed (start_urls cfg); visited := ∅; results := [];
     num_requests := 0; trace := [] |}.

(** [while to_visit and num_requests < cfg.max_requests_per_crawl] *)
Definition loop_cond (cfg : CrawlConfig) (st : state) : bool :=
  negb (bool_decide (to_visit st = [])) && (num_requests st <? max_requests_per_crawl cfg).

(** The test that decides extraction. *)
Definition is_content_page (cfg : CrawlConfig) (pt : page_type) : bool :=
  page_type_eqb pt detail
  || (bool_decide (scrape_url_globs cfg = []) && negb (page_type_eqb pt pagination)).

(** The body of [for link in links] for one link. *)
Definition enqueue_link `{Externals} (cfg : CrawlConfig) (seen : gset string)
    (url : string) (queue : list entry) (link : string) : list entry :=
  match normalize_url (Some link) with
  | None => queue
  | Some norm =>
      if PyStr.is_empty norm || bool_decide (norm ∈ seen) then queue
      else if should_ignore norm (ignore_url_globs cfg) then queue
      else
        match classify_url norm (scrape_url_globs cfg) (pagination_url_globs cfg) with
        | detail | pagination => (queue ++ [(norm, Some url)])%list
        | unknown =>
            if String.eqb (Urllib.netloc (Urllib.urlparse norm))
                          (Urllib.netloc (Urllib.urlparse url))
            then (queue ++ [(norm, Some url)])%list else queue
        end
  end.

Definition enqueue_links `{Externals} (cfg : CrawlConfig) (seen : gset string)
    (url : string) (queue : list entry) (links : list string) : list entry :=
  fold_left (enqueue_link cfg seen url) links queue.

(** The URL a fetched page goes by: the final URL normalized, else the
    dequeued one. *)
Definition page_url (url final_url : string) : string :=
  match normalize_url (Some final_url) with
  | Some n => if PyStr.is_empty n then url else n
  | None => url
  end.

(** What follows a usable response: classification of the final URL,
    extraction, link discovery. *)
Definition process_page `{Externals} (cfg : CrawlConfig) (st : state)
    (url html final_url : string) : state :=
  let url := page_url url final_url in
  let pt := classify_url url (scrape_url_globs cfg) (pagination_url_globs cfg) in
  let st :=
    if is_content_page cfg pt then
      let tr := (trace st ++ [Extract url])%list in
      match parse_metadata html url with
      | Some meta =>
          mkState (to_visit st) (visited st) (results st ++ [meta])%list (num_requests st) tr
      | None => mkState (to_visit st) (visited st) (results st) (num_requests st) tr
      end
    else st in
  match pt with
  | pagination | unknown =>
      let tr := (trace st ++ [Discover url])%list in
      match find_links html url with
      | Some links =>
          mkState (enqueue_links cfg (visited st) url (to_visit st) links)
                  (visited st) (results st) (num_requests st) tr
      | None => mkState (to_visit st) (visited st) (results st) (num_requests st) tr
      end
  | detail => st
  end.

(** One iteration of the [while] loop, entered with a non-empty frontier. *)
Definition loop_body `{Externals} (cfg : CrawlConfig) (st : state) : state :=
  match to_visit st with
  | [] => st
  | (url, referrer) :: rest =>
      let st := mkState rest (visited st) (results st) (num_requests st) (trace st) in
      if PyStr.is_empty url || bool_decide (url ∈ visited st) then st
      else
        let st := mkState (to_visit st) ({[url]} ∪ visited st) (results st)
                          (num_requests st) (trace st) in
        if should_ignore url (ignore_url_globs cfg) then st
        else
          let outcome := fetch_html (trace st) url in
          let st := mkState (to_visit st) (visited st) (results st)
                            (num_requests st) (trace st ++ [Fetch url])%list in
          match outcome with
          | None => st
          | Some (html, final_url, status) =>
              let st := mkState (to_visit st) (visited st) (results st)
                                (num_requests st + 1) (trace st) in
              if (status >=? 400) || PyStr.is_empty html then st
              else process_page cfg st url html final_url
          end
  end.

(** The state after at most [n] iterations of the loop. *)
Fixpoint run `{Externals} (cfg : CrawlConfig) (n : nat) (st : state) : state :=
  match n with
  | O => st
  | S k => if loop_cond cfg st then run cfg k (loop_body cfg st) else st
  end.

(** The loop with fuel: [None] when the fuel runs out before the loop
    condition fails. *)
Fixpoint crawl_loop `{Externals} (cfg : CrawlConfig) (fuel : nat) (st : state) : option state :=
  if loop_cond cfg st then
    match fuel with
    | O => None
    | S k => crawl_loop cfg k (loop_body cfg st)
    end
  else Some st.

(** [crawl(cfg, logger)] *)
Definition crawl `{Externals} (cfg : CrawlConfig) (fuel : nat) : option (list PageRecord) :=
  option_map results (crawl_loop cfg fuel (init cfg)).

(** The URLs handed to [fetch_html], in order. *)
Definition fetched (tr : list event) : list string :=
  omap (fun e => match e with Fetch u => Some u | _ => None end) tr.

(** The ways one iteration can go, read off [loop_body]: the entry is
    discarded, ignored, its fetch raises, the response is unusable, or the
    page is processed. *)
Inductive iteration `{Externals} (cfg : CrawlConfig) (st : state) : state -> Prop :=
| it_discarded url referrer rest :
    to_visit st = (url, referrer) :: rest ->
    PyStr.is_empty url || bool_decide (url ∈ visited st) = true ->
    iteration cfg st
      (mkState rest (visited st) (results st) (num_requests st) (trace st))
| it_ignored url referrer rest :
    to_visit st = (url, referrer) :: rest ->
    PyStr.is_empty url || bool_decide (url ∈ visited st) = false ->
    should_ignore url (ignore_url_globs cfg) = true ->
    iteration cfg st
      (mkState rest ({[url]} ∪ visited st) (results st) (num_requests st) (trace st))
| it_fetch_failed url referrer rest :
    to_visit st = (url, referrer) :: rest ->
    PyStr.is_empty url || bool_decide (url ∈ visited st) = false ->
    should_ignore url (ignore_url_globs cfg) = false ->
    fetch_html (trace st) url = None ->
    iteration cfg st
      (mkState rest ({[url]} ∪ visited st) (results st) (num_requests st)
               (trace st ++ [Fetch url])%list)
| it_unusable url referrer rest html final_url status :
    to_visit st = (url, referrer) :: rest ->
    PyStr.is_empty url || bool_decide (url ∈ visited st) = false ->
    should_ignore url (ignore_url_globs cfg) = false ->
    fetch_html (trace st) url = Some (html, final_url, status) ->
    (status >=? 400) || PyStr.is_empty html = true ->
    iteration cfg st
      (mkState rest ({[url]} ∪ visited st) (results st) (num_requests st + 1)
               (trace st ++ [Fetch url])%list)
| it_processed url referrer rest html final_url status :
    to_visit st = (url, referrer) :: rest ->
    PyStr.is_empty url || bool_decide (url ∈ visited st) = false ->
    should_ignore url (ignore_url_globs cfg) = false ->
    fetch_html (trace st) url = Some (html, final_url, status) ->
    (status >=? 400) || PyStr.is_empty html = false ->
    iteration cfg st
      (process_page cfg
         (mkState rest ({[url]} ∪ visited st) (results st) (num_requests st + 1)
                  (trace st ++ [Fetch url])%list)
         url html final_url).


(** The links that pass the checks of the inner loop, in the words of the
    re-enqueue rule: normalized, not yet visited, not ignored, and either
    classified or with the network location of the page. *)
Definition followed `{Externals} (cfg : CrawlConfig) (seen : gset string) (url norm : string) : bool :=
  negb (PyStr.is_empty norm) && negb (bool_decide (norm ∈ seen))
  && negb (should_ignore norm (ignore_url_globs cfg))
  && match classify_url norm (scrape_url_globs cfg) (pagination_url_globs cfg) with
     | detail | pagination => true
     | unknown => String.eqb (Urllib.netloc (Urllib.urlparse norm))
                             (Urllib.netloc (Urllib.urlparse url))
     end.

Definition new_entry `{Externals} (cfg : CrawlConfig) (seen : gset string) (url link : string) : option entry :=
  match normalize_url (Some link) with
  | Some norm => if followed cfg seen url norm then Some (norm, Some url) else None
  | None => None
  end.

(** The same collaborators with another Readability. *)
Definition with_readability (summary : string -> option string) (w : Externals)
  : Externals :=
  {| http_get := @http_get w;
     BeautifulSoup := @BeautifulSoup w;
     readability_summary := summary;
     urljoin := @urljoin w;
     fnmatch := @fnmatch w |}.

(** A visible character, or the plain space. *)
Definition plain_char (c : ascii) : bool :=
  negb (PyStr.isspace c) || Ascii.eqb c " ".

(** No two whitespace characters side by side. *)
Fixpoint no_adjacent_spaces (s : string) : bool :=
  match s with
  | String a (String b _ as rest) =>
      negb (PyStr.isspace a && PyStr.isspace b) && no_adjacent_spaces rest
  | _ => true
  end.

(** Null, or a text that begins with a visible character. *)
Definition visible_or_none (o : option string) : Prop :=
  match o with
  | Some t => exists c r, t = String c r /\ PyStr.isspace c = false
  | None => True
  end.

(** Two wildcard stars side by side somewhere in the pattern. *)
Fixpoint has_double_star (s : string) : bool :=
  match s with
  | String a (String b _ as rest) =>
      (Ascii.eqb a "*" && Ascii.eqb b "*") || has_double_star rest
  | _ => false
  end.

(** A character of a plain host name: printable ASCII, none of [/], [?],
    [#], and no bracket, so that [urlsplit] has nothing to reject. *)
Definition host_char (c : ascii) : bool :=
  let n := PyStr.ord c in
  ((33 <=? n) && (n <=? 126))%N && Urllib.netloc_char c
  && negb (Ascii.eqb c "[" || Ascii.eqb c "]").

(** A text without a bracket: [urlsplit] has nothing to reject in it. *)
Definition bracket_free (s : string) : bool :=
  negb (PyStr.contains "[" s || PyStr.contains "]" s).

(** No [href] that [find_links] hands to [urljoin] holds a bracket. *)
Definition hrefs_bracket_free (soup : node) : bool :=
  forallb (fun a => match Soup.get a "href" with
                    | Some href =>
                        PyStr.is_empty href
                        || existsb (fun p => PyStr.startswith p href) skipped_prefixes
                        || bracket_free href
                    | None => true
                    end)
          (Soup.find_all_with soup "a" "href").

(** ** [runner]: command line and logger, [exporters]: output directory *)

(** A handler of the logger: its stream and its format. *)
Record Handler := mkHandler {
  handler_stream : string;
  handler_format : string
}.

(** The state of the logger named ["metadata-scraper"] in the registry of
    the [logging] module. *)
Record Logger := mkLogger {
  log_level : Z;
  log_handlers : list Handler
}.

Definition WARNING : Z := 30.
Definition INFO : Z := 20.
Definition DEBUG : Z := 10.

(** [build_logger(verbosity)], on the state of the named logger. *)
Definition build_logger (verbosity : Z) (log : Logger) : Logger :=
  let level :=
    if verbosity =? 1 then INFO
    else if verbosity >=? 2 then DEBUG
    else WARNING in
  let handler := mkHandler "stdout" "[%(levelname)s] %(message)s" in
  mkLogger level
    (match log_handlers log with
     | [] => [handler]
     | _ :: _ => log_handlers log
     end).

(** The two overrides of [main]: [if args.out] and
    [if args.max is not None]. *)
Definition apply_args (cfg : CrawlConfig) (out : option string) (max : option Z)
  : CrawlConfig :=
  let cfg :=
    if PyStr.truthy out
    then match out with
         | Some o => mkCrawlConfig (start_urls cfg) (scrape_url_globs cfg)
                       (pagination_url_globs cfg) (ignore_url_globs cfg)
                       (max_requests_per_crawl cfg) o
         | None => cfg
         end
    else cfg in
  match max with
  | Some m => mkCrawlConfig (start_urls cfg) (scrape_url_globs cfg)
                (pagination_url_globs cfg) (ignore_url_globs cfg) m (output_file cfg)
  | None => cfg
  end.

(** [s.rstrip(c)] for one character [c] *)
Fixpoint rstrip_char (c : ascii) (s : string) : string :=
  match s with
  | EmptyString => EmptyString
  | String d s' =>
      let r := rstrip_char c s' in
      if Ascii.eqb c d && PyStr.is_empty r then EmptyString else String d r
  end.

(** [os.path.dirname(p)] of [posixpath]: the text up to the last slash,
    without its trailing slashes unless it is made of slashes only. *)
Definition dirname (p : string) : string :=
  let head := match Urllib.rsplit_keep "/" p with
              | Some (h, _) => h
              | None => EmptyString
              end in
  if negb (PyStr.is_empty head) && negb (Urllib.all_chars (Ascii.eqb "/") head)
  then rstrip_char "/" head else head.

(** [ensure_dir(path)]: [os.makedirs] is called on the directory part. *)
Definition ensure_dir {A} (makedirs : string -> A) (path : string) : A :=
  makedirs (dirname path).

(** ** A small concrete world, for closed examples *)

Module Demo.

(** A wildcard matcher with [*] and [?], standing for [fnmatch.fnmatch]. *)
Fixpoint glob (pat target : string) : bool :=
  match pat with
  | EmptyString => PyStr.is_empty target
  | String "*" pat' =>
      (fix star (t : string) : bool :=
         glob pat' t || match t with
                        | EmptyString => false
                        | String _ t' => star t'
                        end) target
  | String "?" pat' =>
      match target with
      | String _ t' => glob pat' t'
      | EmptyString => false
      end
  | String c pat' =>
      match target with
      | String d t' => Ascii.eqb c d && glob pat' t'
      | EmptyString => false
      end
  end.

Definition anchor (href : string) : node :=
  Tag "a" [("href", href)] [NavigableString "link"].

(** The home page: four links and a fragment-only one. *)
Definition home_soup : node :=
  Tag "[document]" []
    [Tag "html" []
       [Tag "body" []
          [anchor "http://example.com/articles/1";
           anchor "http://example.com/page/2";
           anchor "http://other.org/x";
           anchor "http://example.com/about";
           anchor "http://example.com/private/key";
           anchor "#top"]]].

(** An article page: a social title, a container with text. *)
Definition article_soup : node :=
  Tag "[document]" []
    [Tag "html" []
       [Tag "head" []
          [Tag "meta" [("property", "og:title"); ("content", " First  post ")] []];
        Tag "body" []
          [Tag "article" []
             [Tag "p" [] [NavigableString " Hello "];
              Tag "p" [] [NavigableString "world"]]]]].

(** An empty [article] element before a [main] element with text. *)
Definition odd_soup : node :=
  Tag "[document]" []
    [Tag "html" []
       [Tag "head" []
          [Tag "meta" [("property", "og:title"); ("content", "Odd page")] []];
        Tag "body" []
          [Tag "article" [] [];
           Tag "main" [] [NavigableString "text"]]]].

Definition home : string := "http://example.com/".
Definition about : string := "http://example.com/about".
Definition article_1 : string := "http://example.com/articles/1".

(** Two links that differ by their fragment only. *)
Definition fragment_soup : node :=
  Tag "[document]" []
    [Tag "body" [] [anchor "http://x.com/a"; anchor "http://x.com/a#frag"]].

Definition pages : list (string * Response) :=
  [("http://example.com/", mkResponse "home" "http://example.com/" 200);
   ("http://example.com/articles/1",
    mkResponse "article" "http://example.com/articles/1" 200);
   ("http://example.com/articles/404",
    mkResponse "not found" "http://example.com/articles/404" 404);
   ("http://example.com/page/2", mkResponse "home" "http://example.com/page/2" 200);
   ("http://example.com/about", mkResponse "about" "http://example.com/about" 200)].

Fixpoint lookup_page (url : string) (l : list (string * Response)) : option Response :=
  match l with
  | [] => None
  | (u, r) :: l' => if String.eqb url u then Some r else lookup_page url l'
  end.

(** Readability raises on every page of this world. *)
Definition world : Externals :=
  {| http_get := fun _ url => lookup_page url pages;
     BeautifulSoup := fun html =>
       if String.eqb html "home" then Some home_soup
       else if String.eqb html "article" then Some article_soup
       else if String.eqb html "odd" then Some odd_soup
       else if String.eqb html "fragments" then Some fragment_soup
       else Some (Tag "[document]" [] [NavigableString html]);
     readability_summary := fun _ => None;
     urljoin := fun _ href => href;
     fnmatch := fun target pat => glob pat target |}.

Definition cfg : CrawlConfig :=
  {| start_urls := ["http://example.com"];
     scrape_url_globs := ["http://example.com/articles/*"];
     pagination_url_globs := ["http://example.com/page/*"];
     ignore_url_globs := ["**/private/**"];
     max_requests_per_crawl := 5;
     output_file := "data/output.json" |}.

(** The same site, entered at a page that answers 404. *)
Definition cfg_404 : CrawlConfig :=
  {| start_urls := ["http://example.com/articles/404"; "http://example.com"];
     scrape_url_globs := ["http://example.com/articles/*"];
     pagination_url_globs := ["http://example.com/page/*"];
     ignore_url_globs := ["**/private/**"];
     max_requests_per_crawl := 1;
     output_file := "data/output.json" |}.

(** The same site, entered at a URL that an ignore pattern matches. *)
Definition cfg_private : CrawlConfig :=
  {| start_urls := ["http://example.com/private/key"; "http://example.com"];
     scrape_url_globs := ["http://example.com/articles/*"];
     pagination_url_globs := ["http://example.com/page/*"];
     ignore_url_globs := ["**/private/**"];
     max_requests_per_crawl := 5;
     output_file := "data/output.json" |}.

(** A world of one document: every GET gives [resp], every text parses to
    [soup], Readability raises, links are taken as they are. *)
Definition single_page (resp : option Response) (soup : node) : Externals :=
  {| http_get := fun _ _ => resp;
     BeautifulSoup := fun _ => Some soup;
     readability_summary := fun _ => None;
     urljoin := fun _ href => href;
     fnmatch := fun target pat => glob pat target |}.

(** A page with a level-1 heading and nothing else to take a title from. *)
Definition heading_soup : node :=
  Tag "[document]" []
    [Tag "html" []
       [Tag "body" []
          [Tag "h1" [] [NavigableString " Only  heading "];
           Tag "p" [] [NavigableString "text"]]]].

(** A page with one link to its own host, written with the port. *)
Definition port_soup : node :=
  Tag "[document]" []
    [Tag "html" [] [Tag "body" [] [anchor "http://example.com:80/x"]]].

(** No scrape patterns and no pagination patterns. *)
Definition cfg_open : CrawlConfig :=
  {| start_urls := ["http://example.com"];
     scrape_url_globs := [];
     pagination_url_globs := [];
     ignore_url_globs := [];
     max_requests_per_crawl := 3;
     output_file := "data/output.json" |}.

End Demo.

(** * Properties *)

(** ** Whitespace normalization *)

Section CleanWhitespace.

Import PyStr.

Lemma sub_ws_run_lstrip (s : string) :
  lstrip (sub_ws_from true s) = sub_ws_from true s.
Proof.
  induction s as [|c s IH]; simpl; [reflexivity|].
  destruct (isspace c) eqn:Hc; simpl; [exact IH|].
  now rewrite Hc.
Qed.

Lemma lstrip_sub_ws (s : string) :
  lstrip (sub_ws s) = sub_ws_from true s.
Proof.
  unfold sub_ws. destruct s as [|c s]; simpl; [reflexivity|].
  destruct (isspace c) eqn:Hc; simpl.
  - apply sub_ws_run_lstrip.
  - now rewrite Hc.
Qed.

Lemma words_nonempty (s : string) : Forall (fun w => is_empty w = false) (words s).
Proof.
  induction s as [|c s IH]; simpl; [constructor|].
  destruct (isspace c); [exact IH|].
  destruct s as [|c' s']; [repeat constructor|].
  destruct (isspace c'); [constructor; [reflexivity|exact IH]|].
  destruct (words (String c' s')) as [|w ws]; [repeat constructor|].
  inversion IH; subst. constructor; [reflexivity|assumption].
Qed.

Lemma words_head (c : ascii) (s : string) :
  isspace c = false -> words (String c s) <> [].
Proof.
  intros Hc. simpl. rewrite Hc.
  destruct s as [|c' s']; [discriminate|].
  destruct (isspace c'); [discriminate|].
  destruct (words (String c' s')); discriminate.
Qed.

Lemma join_cons_char (c : ascii) (w : string) (ws : list string) :
  join " " (String c w :: ws) = String c (join " " (w :: ws)).
Proof. destruct ws; reflexivity. Qed.

Lemma join_empty (ws : list string) :
  Forall (fun w => is_empty w = false) ws ->
  is_empty (join " " ws) = bool_decide (ws = []).
Proof.
  intros H. destruct H as [|w ws Hw Hws]; [reflexivity|].
  destruct w as [|c w]; [discriminate|].
  rewrite join_cons_char. reflexivity.
Qed.

Lemma rstrip_sub_ws_run (s : string) :
  rstrip (sub_ws_from true s) = join " " (words s).
Proof.
  induction s as [|c s IH]; [reflexivity|].
  cbn [sub_ws_from words].
  destruct (isspace c) eqn:Hc; [exact IH|].
  cbn [rstrip]. rewrite Hc. cbn [andb].
  destruct s as [|c' s']; [reflexivity|].
  destruct (isspace c') eqn:Hc'.
  - cbn [sub_ws_from] in *. rewrite Hc' in *. cbn [rstrip].
    assert (Hsp : isspace " " = true) by reflexivity. rewrite Hsp. cbn [andb].
    rewrite IH, join_empty by apply words_nonempty.
    destruct (words (String c' s')) as [|w ws]; reflexivity.
  - pose proof (words_head c' s' Hc') as Hne.
    assert (Hsame : sub_ws_from false (String c' s') = sub_ws_from true (String c' s'))
      by (cbn [sub_ws_from]; now rewrite Hc').
    rewrite Hsame, IH.
    destruct (words (String c' s')) as [|w ws]; [congruence|].
    now rewrite join_cons_char.
Qed.

(** Collapsing and trimming leaves the words of the text, one space apart. *)
Lemma strip_sub_ws_words (s : string) :
  strip (sub_ws s) = join " " (words s).
Proof. unfold strip. rewrite lstrip_sub_ws. apply rstrip_sub_ws_run. Qed.

End CleanWhitespace.

Lemma clean_whitespace_words (c : ascii) (t : string) :
  _clean_whitespace (Some (String c t))
  = Some (PyStr.join " " (PyStr.words (String c t))).
Proof.
  unfold _clean_whitespace. cbn [PyStr.truthy PyStr.is_empty negb].
  now rewrite strip_sub_ws_words.
Qed.

(** C8 (counterexample): the empty string is returned as it is, not as
    null. *)
Lemma clean_whitespace_empty_is_not_null :
  _clean_whitespace (Some "") <> None.
Proof. discriminate. Qed.

(** C8 (amended): whitespace normalization collapses every run of
    whitespace to one space and trims both ends, so that a non-empty text
    becomes its words one space apart and ["  a\n\tb  "] becomes ["a b"];
    the empty string is returned as the empty string, a text of whitespace
    alone becomes the empty string, and only a null input gives null. *)
Theorem clean_whitespace_collapses_and_trims :
  (forall c t, _clean_whitespace (Some (String c t))
               = Some (PyStr.join " " (PyStr.words (String c t))))
  /\ _clean_whitespace
       (Some ("  a" ++ String (ascii_of_nat 10) (String (ascii_of_nat 9) "b  ")))
     = Some "a b"
  /\ _clean_whitespace (Some "") = Some ""
  /\ _clean_whitespace (Some "   ") = Some ""
  /\ _clean_whitespace None = None.
Proof.
  repeat split; try reflexivity. apply clean_whitespace_words.
Qed.

(** ** The crawl loop *)

Section Crawl.

Context `{Externals} (cfg : CrawlConfig).

Lemma loop_body_iteration (st : state) :
  to_visit st <> [] -> iteration cfg st (loop_body cfg st).
Proof.
  intros Hne. unfold loop_body.
  destruct (to_visit st) as [|[url referrer] rest] eqn:Hq; [congruence|].
  cbn [to_visit visited results num_requests trace].
  destruct (PyStr.is_empty url || bool_decide (url ∈ visited st)) eqn:Hseen.
  { eapply it_discarded; eauto. }
  destruct (should_ignore url (ignore_url_globs cfg)) eqn:Hign.
  { eapply it_ignored; eauto. }
  destruct (fetch_html (trace st) url) as [[[html final_url] status]|] eqn:Hfetch.
  2: { eapply it_fetch_failed; eauto. }
  destruct ((status >=? 400) || PyStr.is_empty html) eqn:Huse.
  - eapply it_unusable; eauto.
  - eapply it_processed; eauto.
Qed.

Lemma loop_cond_true (st : state) :
  loop_cond cfg st = true ->
  to_visit st <> [] /\ num_requests st < max_requests_per_crawl cfg.
Proof.
  unfold loop_cond. intros Hc. apply andb_prop in Hc as [Hq Hn].
  split; [|lia].
  apply negb_true_iff in Hq. now apply bool_decide_eq_false in Hq.
Qed.

(** What [process_page] leaves untouched, and how the rest grows. *)
Lemma process_page_visited st url html final_url :
  visited (process_page cfg st url html final_url) = visited st.
Proof. unfold process_page. repeat case_match; reflexivity. Qed.

Lemma process_page_num_requests st url html final_url :
  num_requests (process_page cfg st url html final_url) = num_requests st.
Proof. unfold process_page. repeat case_match; reflexivity. Qed.

Lemma process_page_trace st url html final_url :
  let u := page_url url final_url in
  let pt := classify_url u (scrape_url_globs cfg) (pagination_url_globs cfg) in
  trace (process_page cfg st url html final_url)
  = (trace st ++ (if is_content_page cfg pt then [Extract u] else [])
       ++ (match pt with detail => [] | _ => [Discover u] end))%list.
Proof.
  unfold process_page. cbn zeta.
  repeat case_match; cbn [trace]; rewrite <- ?app_assoc, ?app_nil_r; reflexivity.
Qed.

Lemma process_page_results st url html final_url :
  let u := page_url url final_url in
  let pt := classify_url u (scrape_url_globs cfg) (pagination_url_globs cfg) in
  results (process_page cfg st url html final_url)
  = (results st ++ (if is_content_page cfg pt
                    then match parse_metadata html u with
                         | Some meta => [meta]
                         | None => []
                         end
                    else []))%list.
Proof.
  unfold process_page. cbn zeta.
  repeat case_match; cbn [results]; rewrite ?app_nil_r; reflexivity.
Qed.

Lemma process_page_to_visit st url html final_url :
  let u := page_url url final_url in
  let pt := classify_url u (scrape_url_globs cfg) (pagination_url_globs cfg) in
  to_visit (process_page cfg st url html final_url)
  = match pt with
    | detail => to_visit st
    | _ => match find_links html u with
           | Some links => enqueue_links cfg (visited st) u (to_visit st) links
           | None => to_visit st
           end
    end.
Proof.
  unfold process_page. cbn zeta.
  repeat case_match; reflexivity.
Qed.

Lemma fetched_app (a b : list event) : fetched (a ++ b) = (fetched a ++ fetched b)%list.
Proof. unfold fetched. apply omap_app. Qed.

Lemma process_page_fetched st url html final_url :
  fetched (trace (process_page cfg st url html final_url)) = fetched (trace st).
Proof.
  rewrite process_page_trace. cbn zeta. rewrite !fetched_app.
  repeat case_match; cbn; rewrite ?app_nil_r; reflexivity.
Qed.

Lemma enqueue_link_new_entry seen url queue link :
  enqueue_link cfg seen url queue link
  = (queue ++ match new_entry cfg seen url link with Some e => [e] | None => [] end)%list.
Proof.
  unfold enqueue_link, new_entry, followed.
  destruct (normalize_url (Some link)) as [norm|]; [|now rewrite app_nil_r].
  destruct (PyStr.is_empty norm); cbn; [now rewrite app_nil_r|].
  destruct (bool_decide (norm ∈ seen)); cbn; [now rewrite app_nil_r|].
  destruct (should_ignore norm (ignore_url_globs cfg)); cbn; [now rewrite app_nil_r|].
  destruct (classify_url norm _ _); try reflexivity.
  destruct (String.eqb _ _); [reflexivity|now rewrite app_nil_r].
Qed.

Lemma enqueue_links_omap seen url links : forall queue,
  enqueue_links cfg seen url queue links = (queue ++ omap (new_entry cfg seen url) links)%list.
Proof.
  unfold enqueue_links.
  induction links as [|link links IH]; intros queue; cbn [fold_left omap].
  - now rewrite app_nil_r.
  - rewrite IH, enqueue_link_new_entry, <- app_assoc.
    destruct (new_entry cfg seen url link) eqn:Hn; cbn; rewrite Hn; reflexivity.
Qed.

Lemma run_invariant (P : state -> Prop) :
  (forall st, P st -> loop_cond cfg st = true -> P (loop_body cfg st)) ->
  forall n st, P st -> P (run cfg n st).
Proof.
  intros Hstep n. induction n as [|n IH]; intros st Hst; cbn [run]; [exact Hst|].
  destruct (loop_cond cfg st) eqn:Hc; [|exact Hst].
  apply IH. now apply Hstep.
Qed.

Lemma run_snoc (n : nat) : forall st,
  run cfg (S n) st
  = (let s := run cfg n st in if loop_cond cfg s then loop_body cfg s else s).
Proof.
  induction n as [|n IH]; intros st.
  - cbn [run]. destruct (loop_cond cfg st); reflexivity.
  - change (run cfg (S (S n)) st)
      with (if loop_cond cfg st then run cfg (S n) (loop_body cfg st) else st).
    destruct (loop_cond cfg st) eqn:Hc.
    + rewrite IH. cbn [run]. now rewrite Hc.
    + cbn [run]. rewrite Hc. cbn zeta. now rewrite Hc.
Qed.

Lemma run_halted (n : nat) (st : state) :
  loop_cond cfg st = false -> run cfg n st = st.
Proof. intros Hc. destruct n; cbn [run]; [reflexivity|now rewrite Hc]. Qed.

Lemma loop_body_empty (st : state) : to_visit st = [] -> loop_body cfg st = st.
Proof. intros Hq. unfold loop_body. now rewrite Hq. Qed.

(** From here on an iteration is taken apart by its five cases. *)
Ltac by_iteration st Hne :=
  let Hit := fresh "Hit" in
  pose proof (loop_body_iteration st Hne) as Hit;
  destruct Hit as [url referrer rest Hq Hseen
                  |url referrer rest Hq Hseen Hign
                  |url referrer rest Hq Hseen Hign Hfetch
                  |url referrer rest html final_url status Hq Hseen Hign Hfetch Huse
                  |url referrer rest html final_url status Hq Hseen Hign Hfetch Huse].

Lemma fresh_url (url : string) (seen : gset string) :
  PyStr.is_empty url || bool_decide (url ∈ seen) = false ->
  url <> "" /\ url ∉ seen.
Proof.
  intros Hs. apply orb_false_elim in Hs as [He Hv].
  split; [now destruct url|now apply bool_decide_eq_false in Hv].
Qed.

(** The counter moves by at most one in an iteration, and never back. *)
Lemma loop_body_num_requests (st : state) :
  num_requests st <= num_requests (loop_body cfg st) <= num_requests st + 1.
Proof.
  destruct (decide (to_visit st = [])) as [Hq|Hne].
  - rewrite loop_body_empty by assumption. lia.
  - by_iteration st Hne; rewrite ?process_page_num_requests;
      cbn [num_requests]; lia.
Qed.

(** No URL is fetched twice, and what was fetched is marked visited. *)
Lemma loop_body_fetch_once (st : state) :
  NoDup (fetched (trace st)) ->
  (forall u, u ∈ fetched (trace st) -> u ∈ visited st) ->
  NoDup (fetched (trace (loop_body cfg st)))
  /\ (forall u, u ∈ fetched (trace (loop_body cfg st)) -> u ∈ visited (loop_body cfg st)).
Proof.
  intros Hnd Hsub.
  destruct (decide (to_visit st = [])) as [Hq|Hne].
  { rewrite loop_body_empty by assumption. now split. }
  assert (Hext : forall url, url ∉ visited st ->
            NoDup (fetched (trace st ++ [Fetch url]))
            /\ (forall u, u ∈ fetched (trace st ++ [Fetch url]) ->
                          u ∈ ({[url]} ∪ visited st : gset string))).
  { intros url Hfresh. rewrite fetched_app. cbn. split.
    - apply NoDup_app. repeat split; [assumption| |apply NoDup_singleton].
      intros u Hu Hin. apply list_elem_of_singleton in Hin. subst u. auto.
    - intros u Hu. apply elem_of_app in Hu as [Hu|Hu].
      + apply elem_of_union_r. auto.
      + apply list_elem_of_singleton in Hu. subst u. set_solver. }
  by_iteration st Hne;
    rewrite ?process_page_fetched, ?process_page_visited; cbn [trace visited];
    try (apply fresh_url in Hseen as [_ Hfresh]; now apply Hext).
  - now split.
  - apply fresh_url in Hseen as [_ Hfresh]. split; [assumption|].
    intros u Hu. apply elem_of_union_r. auto.
Qed.

(** The loop with fuel stops in the state that [run] reaches. *)
Lemma crawl_loop_is_run (fuel : nat) : forall st st',
  crawl_loop cfg fuel st = Some st' ->
  st' = run cfg fuel st /\ loop_cond cfg st' = false.
Proof.
  induction fuel as [|fuel IH]; intros st st'; cbn [crawl_loop run];
    destruct (loop_cond cfg st) eqn:Hc; try discriminate.
  - intros Heq. injection Heq as <-. now split.
  - apply IH.
  - intros Heq. injection Heq as <-. now split.
Qed.

(** What the iteration does when [fetch_html] raises: the fetch is on the
    record, the counter is not touched. *)
Lemma loop_body_fetch_raises st url referrer rest :
  to_visit st = (url, referrer) :: rest ->
  PyStr.is_empty url || bool_decide (url ∈ visited st) = false ->
  should_ignore url (ignore_url_globs cfg) = false ->
  fetch_html (trace st) url = None ->
  loop_body cfg st
  = mkState rest ({[url]} ∪ visited st) (results st) (num_requests st)
            (trace st ++ [Fetch url])%list.
Proof.
  intros Hq Hseen Hign Hfetch. unfold loop_body. rewrite Hq.
  cbn [to_visit visited results num_requests trace].
  now rewrite Hseen, Hign, Hfetch.
Qed.

(** The counter is at most the number of fetches made. *)
Lemma num_requests_le_fetches (n : nat) :
  num_requests (run cfg n (init cfg))
  <= Z.of_nat (length (fetched (trace (run cfg n (init cfg))))).
Proof.
  apply (run_invariant (fun st =>
    num_requests st <= Z.of_nat (length (fetched (trace st))))); [|cbn; lia].
  intros st Hst Hc. apply loop_cond_true in Hc as [Hne _].
  by_iteration st Hne;
    rewrite ?process_page_fetched, ?process_page_num_requests;
    cbn [trace num_requests]; rewrite ?fetched_app, ?length_app; cbn;
    lia.
Qed.

(** C2: in every state a run reaches, whatever the transport answers, no
    URL has been handed to the fetch twice, and every fetched URL is in the
    visited set; a dequeued URL that is already visited is dropped with no
    other change, and a new one is in the visited set after the iteration
    whatever its fetch gave. *)
Theorem at_most_one_fetch_per_url (n : nat) :
  let st := run cfg n (init cfg) in
  NoDup (fetched (trace st))
  /\ (forall u, u ∈ fetched (trace st) -> u ∈ visited st)
  /\ (forall url referrer rest,
        to_visit st = (url, referrer) :: rest ->
        (url ∈ visited st ->
         loop_body cfg st
         = mkState rest (visited st) (results st) (num_requests st) (trace st))
        /\ (url <> "" -> url ∈ visited (loop_body cfg st))).
Proof.
  cbn zeta.
  assert (Hinv : NoDup (fetched (trace (run cfg n (init cfg))))
                 /\ (forall u, u ∈ fetched (trace (run cfg n (init cfg))) ->
                               u ∈ visited (run cfg n (init cfg)))).
  { apply (run_invariant (fun st => NoDup (fetched (trace st))
             /\ (forall u, u ∈ fetched (trace st) -> u ∈ visited st))).
    - intros st [Hnd Hsub] _. now apply loop_body_fetch_once.
    - cbn. split; [apply NoDup_nil_2|]. intros u Hu. inversion Hu. }
  destruct Hinv as [Hnd Hsub]. split; [assumption|]. split; [assumption|].
  intros u0 r0 q0 Hq0. split.
  - intros Hin. unfold loop_body. rewrite Hq0.
    cbn [to_visit visited results num_requests trace].
    rewrite (bool_decide_eq_true_2 _ Hin), orb_true_r. reflexivity.
  - intros Hurl.
    assert (Hne : to_visit (run cfg n (init cfg)) <> []) by (rewrite Hq0; discriminate).
    by_iteration (run cfg n (init cfg)) Hne;
      rewrite Hq in Hq0; injection Hq0 as -> -> ->;
      rewrite ?process_page_visited; cbn [visited]; try set_solver.
    apply orb_prop in Hseen as [He|Hv].
    + now destruct u0.
    + now apply bool_decide_eq_true in Hv.
Qed.

(** X26: with a budget that is not negative, the counter of the fetches
    that returned stays between zero and the budget in every state a run
    reaches; once the loop condition fails nothing more is dequeued; and one
    iteration raises the counter by at most one. *)
Theorem budget_counter_never_exceeds_maximum (n : nat) :
  0 <= max_requests_per_crawl cfg ->
  let st := run cfg n (init cfg) in
  0 <= num_requests st <= max_requests_per_crawl cfg
  /\ (loop_cond cfg st = false -> forall k, run cfg k st = st)
  /\ num_requests st <= num_requests (loop_body cfg st) <= num_requests st + 1.
Proof.
  intros Hmax. cbn zeta. split; [|split].
  - apply (run_invariant (fun st => 0 <= num_requests st <= max_requests_per_crawl cfg)).
    + intros st Hst Hc. apply loop_cond_true in Hc as [_ Hlt].
      pose proof (loop_body_num_requests st). lia.
    + cbn. lia.
  - intros Hc k. now apply run_halted.
  - apply loop_body_num_requests.
Qed.

(** Only URLs that no ignore pattern matches are fetched. *)
Lemma loop_body_fetched_not_ignored (st : state) :
  Forall (fun u => should_ignore u (ignore_url_globs cfg) = false) (fetched (trace st)) ->
  Forall (fun u => should_ignore u (ignore_url_globs cfg) = false)
    (fetched (trace (loop_body cfg st))).
Proof.
  intros Hall.
  destruct (decide (to_visit st = [])) as [Hq|Hne].
  { now rewrite loop_body_empty. }
  by_iteration st Hne; rewrite ?process_page_fetched; cbn [trace];
    rewrite ?fetched_app; try assumption;
    (apply Forall_app; split; [assumption|]); cbn; now constructor.
Qed.

(** C4: in every state a run reaches, no fetched URL matches an ignore
    pattern; and when the dequeued URL matches one, the iteration makes no
    fetch, leaves the counter and the results as they were and goes on
    with the rest of the frontier. *)
Theorem ignored_url_is_never_fetched (n : nat) :
  let st := run cfg n (init cfg) in
  Forall (fun u => should_ignore u (ignore_url_globs cfg) = false) (fetched (trace st))
  /\ (forall url referrer rest,
        to_visit st = (url, referrer) :: rest ->
        should_ignore url (ignore_url_globs cfg) = true ->
        trace (loop_body cfg st) = trace st
        /\ num_requests (loop_body cfg st) = num_requests st
        /\ results (loop_body cfg st) = results st
        /\ to_visit (loop_body cfg st) = rest).
Proof.
  cbn zeta. split.
  - apply (run_invariant (fun st =>
      Forall (fun u => should_ignore u (ignore_url_globs cfg) = false) (fetched (trace st)))).
    + intros st Hst _. now apply loop_body_fetched_not_ignored.
    + cbn. constructor.
  - intros u0 r0 q0 Hq0 Hign0. unfold loop_body. rewrite Hq0.
    cbn [to_visit visited results num_requests trace].
    destruct (PyStr.is_empty u0 || bool_decide (u0 ∈ visited _)); [now repeat split|].
    rewrite Hign0. now repeat split.
Qed.

(** The iteration on a new, not ignored URL whose fetch gave a usable
    response. *)
Lemma loop_body_processed st url referrer rest html final_url status :
  to_visit st = (url, referrer) :: rest ->
  PyStr.is_empty url || bool_decide (url ∈ visited st) = false ->
  should_ignore url (ignore_url_globs cfg) = false ->
  fetch_html (trace st) url = Some (html, final_url, status) ->
  (status >=? 400) || PyStr.is_empty html = false ->
  loop_body cfg st
  = process_page cfg
      (mkState rest ({[url]} ∪ visited st) (results st) (num_requests st + 1)
               (trace st ++ [Fetch url])%list)
      url html final_url.
Proof.
  intros Hq Hseen Hign Hfetch Huse. unfold loop_body. rewrite Hq.
  cbn [to_visit visited results num_requests trace].
  now rewrite Hseen, Hign, Hfetch, Huse.
Qed.

Lemma classify_url_no_patterns (url : string) : classify_url url [] [] = unknown.
Proof. reflexivity. Qed.

Lemma is_content_page_iff (pt : page_type) :
  is_content_page cfg pt = true
  <-> pt = detail \/ (scrape_url_globs cfg = [] /\ pt <> pagination).
Proof.
  unfold is_content_page. rewrite orb_true_iff, andb_true_iff, bool_decide_eq_true.
  destruct pt; cbn; split; intros [Hd|[Hs Hp]]; try discriminate; try congruence;
    auto.
Qed.

(** C5: after a usable response, for a URL and a final URL without
    brackets, the iteration extracts the page exactly when the page is a detail page, or
    there are no scrape patterns and the page is not a pagination page: the
    call is made exactly then, the results gain exactly the record of the
    parsed document then and are unchanged otherwise; the links are
    discovered exactly when the page is not a detail page, and the frontier
    is then the rest of the queue followed by the entries of the anchors of
    the document (stated for hrefs without brackets), and the rest of the
    queue for a detail page; a parser that raises leaves results and
    frontier as they were.  With neither scrape nor pagination patterns
    every URL classifies unknown, and the iteration both extracts the page
    and discovers its links. *)
Theorem extraction_iff_content_page st url referrer rest html final_url status :
  to_visit st = (url, referrer) :: rest ->
  PyStr.is_empty url || bool_decide (url ∈ visited st) = false ->
  should_ignore url (ignore_url_globs cfg) = false ->
  fetch_html (trace st) url = Some (html, final_url, status) ->
  (status >=? 400) || PyStr.is_empty html = false ->
  bracket_free url = true -> bracket_free final_url = true ->
  let u := page_url url final_url in
  let pt := classify_url u (scrape_url_globs cfg) (pagination_url_globs cfg) in
  let seen : gset string := {[url]} ∪ visited st in
  let content := pt = detail \/ (scrape_url_globs cfg = [] /\ pt <> pagination) in
  let record soup :=
    {| rec_url := u;
       rec_title := _clean_whitespace (resolve_title soup);
       rec_description := _clean_whitespace (_first_meta soup description_names);
       rec_heading := _clean_whitespace (resolve_heading soup);
       rec_article := _clean_whitespace (resolve_article html soup) |} in
  let links soup :=
    dedup (omap (link_of_anchor u) (Soup.find_all_with soup "a" "href")) in
  exists calls,
    trace (loop_body cfg st) = (trace st ++ Fetch url :: calls)%list
    /\ (Extract u ∈ calls <-> content)
    /\ (Discover u ∈ calls <-> pt <> detail)
    /\ (~ content -> results (loop_body cfg st) = results st)
    /\ (pt = detail -> to_visit (loop_body cfg st) = rest)
    /\ (BeautifulSoup html = None ->
        results (loop_body cfg st) = results st /\ to_visit (loop_body cfg st) = rest)
    /\ (forall soup, BeautifulSoup html = Some soup ->
        (content -> results (loop_body cfg st) = (results st ++ [record soup])%list)
        /\ (pt <> detail -> hrefs_bracket_free soup = true ->
            to_visit (loop_body cfg st)
            = (rest ++ omap (new_entry cfg seen u) (links soup))%list))
    /\ (scrape_url_globs cfg = [] -> pagination_url_globs cfg = [] ->
        pt = unknown /\ content /\ calls = [Extract u; Discover u]).
Proof.
  intros Hq Hseen Hign Hfetch Huse _ _ u pt seen content record links.
  rewrite (loop_body_processed _ _ _ _ _ _ _ Hq Hseen Hign Hfetch Huse).
  rewrite process_page_trace, process_page_results, process_page_to_visit. cbn zeta.
  fold u. fold pt. cbn [trace results to_visit visited].
  exists ((if is_content_page cfg pt then [Extract u] else [])
          ++ match pt with detail => [] | _ => [Discover u] end)%list.
  split; [now rewrite <- app_assoc|].
  pose proof (is_content_page_iff pt) as Hiff. fold content in Hiff.
  split; [|split; [|split; [|split; [|split; [|split]]]]].
  - rewrite <- Hiff.
    destruct (is_content_page cfg pt); split; intros Hx; try discriminate.
    + reflexivity.
    + apply elem_of_app. left. apply list_elem_of_singleton. reflexivity.
    + apply elem_of_app in Hx as [Hx|Hx]; [inversion Hx|].
      destruct pt; try inversion Hx; subst; try discriminate;
        match goal with Hy : _ ∈ [] |- _ => inversion Hy end.
  - rewrite elem_of_app. split.
    + intros [Hx|Hx] Hpt.
      * destruct (is_content_page cfg pt); [|inversion Hx].
        apply list_elem_of_singleton in Hx. discriminate.
      * rewrite Hpt in Hx. inversion Hx.
    + intros Hpt. right. destruct pt; [congruence| |];
        apply list_elem_of_singleton; reflexivity.
  - intros Hno. destruct (is_content_page cfg pt) eqn:Hc.
    + destruct Hno. now apply Hiff.
    + now rewrite app_nil_r.
  - intros Hpt. now rewrite Hpt.
  - intros Hsoup. unfold parse_metadata, find_links. rewrite Hsoup. split.
    + destruct (is_content_page cfg pt); now rewrite app_nil_r.
    + now destruct pt.
  - intros soup Hsoup. unfold parse_metadata, find_links. rewrite Hsoup. split.
    + intros Hc. apply Hiff in Hc. now rewrite Hc.
    + intros Hpt _. destruct pt; [congruence| |]; apply enqueue_links_omap.
  - intros Hs Hp. subst content pt. unfold is_content_page. rewrite Hs, Hp.
    rewrite classify_url_no_patterns. split; [reflexivity|]. split; [|reflexivity].
    right. split; [reflexivity|discriminate].
Qed.

Lemma followed_iff (seen : gset string) (url norm : string) :
  followed cfg seen url norm = true
  <-> norm <> "" /\ (norm ∉ seen)
      /\ should_ignore norm (ignore_url_globs cfg) = false
      /\ (classify_url norm (scrape_url_globs cfg) (pagination_url_globs cfg) = detail
          \/ classify_url norm (scrape_url_globs cfg) (pagination_url_globs cfg) = pagination
          \/ (classify_url norm (scrape_url_globs cfg) (pagination_url_globs cfg) = unknown
              /\ Urllib.netloc (Urllib.urlparse norm) = Urllib.netloc (Urllib.urlparse url))).
Proof.
  unfold followed. rewrite !andb_true_iff, !negb_true_iff, bool_decide_eq_false.
  assert (He : PyStr.is_empty norm = false <-> norm <> "")
    by (destruct norm; cbn; split; congruence).
  rewrite He.
  destruct (classify_url norm _ _); rewrite ?String.eqb_eq; intuition congruence.
Qed.

(** C6 (amended): after a usable response for a page that is not a detail
    page, the frontier is the rest of the queue followed by the new
    entries, and the new entries are exactly the discovered links that
    normalize to a URL that is not visited and not ignored and that
    classifies as detail or pagination, or classifies as unknown and has
    the network location of the page: the [netloc] of [urlparse], which is
    the host as it is written together with any user information and port.
    After a usable response for a detail page the frontier is the rest of
    the queue and no link discovery is made, and a parser that raises
    leaves the rest of the queue.  The URL, the final URL and the hrefs of
    the document are taken without brackets. *)
Theorem links_followed_by_class_or_netloc st url referrer rest html final_url status :
  to_visit st = (url, referrer) :: rest ->
  PyStr.is_empty url || bool_decide (url ∈ visited st) = false ->
  should_ignore url (ignore_url_globs cfg) = false ->
  fetch_html (trace st) url = Some (html, final_url, status) ->
  (status >=? 400) || PyStr.is_empty html = false ->
  bracket_free url = true -> bracket_free final_url = true ->
  let u := page_url url final_url in
  let pt := classify_url u (scrape_url_globs cfg) (pagination_url_globs cfg) in
  let seen : gset string := {[url]} ∪ visited st in
  let class x := classify_url x (scrape_url_globs cfg) (pagination_url_globs cfg) in
  (pt = detail ->
   to_visit (loop_body cfg st) = rest
   /\ trace (loop_body cfg st) = (trace st ++ [Fetch url; Extract u])%list)
  /\ (BeautifulSoup html = None -> to_visit (loop_body cfg st) = rest)
  /\ (pt <> detail ->
      forall soup, BeautifulSoup html = Some soup -> hrefs_bracket_free soup = true ->
      exists links new,
        find_links html u = Some links
        /\ to_visit (loop_body cfg st) = (rest ++ new)%list
        /\ forall e, e ∈ new <->
             exists link norm,
               link ∈ links /\ normalize_url (Some link) = Some norm
               /\ e = (norm, Some u)
               /\ norm <> "" /\ (norm ∉ seen)
               /\ should_ignore norm (ignore_url_globs cfg) = false
               /\ (class norm = detail \/ class norm = pagination
                   \/ (class norm = unknown
                       /\ Urllib.netloc (Urllib.urlparse norm)
                          = Urllib.netloc (Urllib.urlparse u)))).
Proof.
  intros Hq Hseen Hign Hfetch Huse _ _ u pt seen class.
  rewrite (loop_body_processed _ _ _ _ _ _ _ Hq Hseen Hign Hfetch Huse).
  rewrite process_page_to_visit, process_page_trace. cbn zeta.
  fold u. fold pt. cbn [to_visit visited trace]. split; [|split].
  - intros Hpt. rewrite Hpt. unfold is_content_page. cbn.
    split; [reflexivity|now rewrite <- app_assoc].
  - intros Hsoup. unfold find_links. rewrite Hsoup. now destruct pt.
  - intros Hpt soup Hsoup _.
    assert (Hlinks : find_links html u
                     = Some (dedup (omap (link_of_anchor u)
                                      (Soup.find_all_with soup "a" "href"))))
      by (unfold find_links; now rewrite Hsoup).
    rewrite Hlinks. eexists. exists (omap (new_entry cfg seen u)
      (dedup (omap (link_of_anchor u) (Soup.find_all_with soup "a" "href")))).
    split; [reflexivity|]. split.
    + destruct pt; [congruence| |]; apply enqueue_links_omap.
    + intros e. rewrite list_elem_of_omap. unfold new_entry. split.
      * intros (link & Hin & Hnew).
        destruct (normalize_url (Some link)) as [norm|] eqn:Hnorm; [|discriminate].
        destruct (followed cfg seen u norm) eqn:Hf; [|discriminate].
        injection Hnew as <-. apply followed_iff in Hf.
        exists link, norm. tauto.
      * intros (link & norm & Hin & Hnorm & -> & Hrest).
        exists link. split; [assumption|]. rewrite Hnorm.
        apply followed_iff in Hrest. now rewrite Hrest.
Qed.

(** An iteration takes the first entry off the frontier; entries are added
    behind the rest only when the counter went up. *)
Lemma loop_body_frontier st url referrer rest :
  to_visit st = (url, referrer) :: rest ->
  exists new,
    to_visit (loop_body cfg st) = (rest ++ new)%list
    /\ (new <> [] -> num_requests (loop_body cfg st) = num_requests st + 1).
Proof.
  intros Hq0.
  assert (Hne : to_visit st <> []) by (rewrite Hq0; discriminate).
  pose proof (loop_body_iteration st Hne) as Hit.
  destruct Hit as [u r q Hq Hseen|u r q Hq Hseen Hign|u r q Hq Hseen Hign Hfetch
                  |u r q html final_url status Hq Hseen Hign Hfetch Huse
                  |u r q html final_url status Hq Hseen Hign Hfetch Huse];
    rewrite Hq in Hq0; injection Hq0 as -> -> ->;
    try (exists []; cbn [to_visit num_requests]; rewrite app_nil_r;
         split; [reflexivity|congruence]).
  rewrite process_page_to_visit, process_page_num_requests.
  cbn zeta. cbn [to_visit visited num_requests].
  destruct (classify_url _ _ _);
    [exists []; rewrite app_nil_r; split; [reflexivity|congruence]| |];
    (destruct (find_links html _) as [links|];
     [rewrite enqueue_links_omap; eexists; split; [reflexivity|reflexivity]
     |exists []; rewrite app_nil_r; split; [reflexivity|congruence]]).
Qed.

Lemma crawl_loop_more_fuel (fuel more : nat) : forall st st',
  crawl_loop cfg fuel st = Some st' -> crawl_loop cfg (fuel + more) st = Some st'.
Proof.
  induction fuel as [|fuel IH]; intros st st'; cbn [crawl_loop Nat.add].
  - destruct (loop_cond cfg st) eqn:Hc; [discriminate|].
    intros Hs. destruct more; cbn [crawl_loop]; now rewrite Hc.
  - destruct (loop_cond cfg st); [apply IH|trivial].
Qed.

(** The budget left and the length of the frontier go down
    lexicographically, so some amount of fuel suffices. *)
Lemma crawl_loop_enough_fuel (budget : nat) : forall (len : nat) (st : state),
  (Z.to_nat (max_requests_per_crawl cfg - num_requests st) <= budget)%nat ->
  (length (to_visit st) <= len)%nat ->
  exists fuel st', crawl_loop cfg fuel st = Some st' /\ loop_cond cfg st' = false.
Proof.
  induction budget as [|budget IHb]; intros len; induction len as [|len IHl];
    intros st Hb Hl;
    destruct (loop_cond cfg st) eqn:Hc;
    try (exists 0%nat, st; cbn [crawl_loop]; rewrite Hc; now split);
    pose proof (loop_cond_true st Hc) as [Hne Hlt];
    try lia;
    try (destruct (to_visit st); [congruence|cbn [length] in Hl; lia]).
  destruct (to_visit st) as [|[url referrer] rest] eqn:Hq; [congruence|].
  destruct (loop_body_frontier st url referrer rest Hq) as (new & Hnew & Hgrow).
  pose proof (loop_body_num_requests st) as Hnum.
  assert (Hnext : exists fuel st',
            crawl_loop cfg fuel (loop_body cfg st) = Some st'
            /\ loop_cond cfg st' = false).
  { destruct new as [|e new].
    - destruct (decide (num_requests (loop_body cfg st) = num_requests st)) as [Heq|Hneq].
      + apply IHl; [lia|]. rewrite Hnew, app_nil_r. cbn [length] in Hl. lia.
      + apply (IHb (length (to_visit (loop_body cfg st)))); lia.
    - specialize (Hgrow ltac:(discriminate)).
      apply (IHb (length (to_visit (loop_body cfg st)))); lia. }
  destruct Hnext as (fuel & st' & Hrun & Hhalt).
  exists (S fuel), st'. cbn [crawl_loop]. now rewrite Hc.
Qed.

(** C10: the crawl returns: for every configuration and every world some
    amount of fuel makes the loop stop, from the initial state and from any
    other, in a state where the loop condition fails, and more fuel gives
    the same state; every iteration takes the first entry off the frontier,
    and entries are added only in an iteration that raised the counter. *)
Theorem crawl_loop_terminates :
  (exists fuel recs, crawl cfg fuel = Some recs)
  /\ (forall st, exists fuel st',
        crawl_loop cfg fuel st = Some st' /\ loop_cond cfg st' = false
        /\ forall more, crawl_loop cfg (fuel + more) st = Some st')
  /\ (forall st url referrer rest,
        to_visit st = (url, referrer) :: rest ->
        exists new,
          to_visit (loop_body cfg st) = (rest ++ new)%list
          /\ (new <> [] -> num_requests (loop_body cfg st) = num_requests st + 1)).
Proof.
  assert (Hall : forall st, exists fuel st',
            crawl_loop cfg fuel st = Some st' /\ loop_cond cfg st' = false).
  { intros st. eapply crawl_loop_enough_fuel; reflexivity. }
  split; [|split].
  - destruct (Hall (init cfg)) as (fuel & st' & Hrun & _).
    exists fuel, (results st'). unfold crawl. now rewrite Hrun.
  - intros st. destruct (Hall st) as (fuel & st' & Hrun & Hhalt).
    exists fuel, st'. repeat split; try assumption.
    intros more. now apply crawl_loop_more_fuel.
  - apply loop_body_frontier.
Qed.

End Crawl.

(** ** The extraction pipeline *)

Section Extraction.

Import PyStr.

Lemma lstrip_head (s : string) (c : ascii) (r : string) :
  lstrip s = String c r -> isspace c = false.
Proof.
  induction s as [|d s IH]; cbn [lstrip]; [discriminate|].
  destruct (isspace d) eqn:Hd; [exact IH|].
  intros Heq. injection Heq as <- <-. exact Hd.
Qed.

Lemma rstrip_head (s : string) (c : ascii) (r : string) :
  rstrip s = String c r -> exists r', s = String c r'.
Proof.
  destruct s as [|d s]; cbn [rstrip]; [discriminate|].
  destruct (isspace d && is_empty (rstrip s)); [discriminate|].
  intros Heq. injection Heq as <- <-. eauto.
Qed.

(** A stripped text that is not empty begins with a visible character. *)
Lemma strip_head (s : string) (c : ascii) (r : string) :
  strip s = String c r -> isspace c = false.
Proof.
  unfold strip. intros Heq. apply rstrip_head in Heq as [r' Heq].
  now apply lstrip_head in Heq.
Qed.

Lemma clean_visible (c : ascii) (r : string) :
  isspace c = false ->
  exists a, _clean_whitespace (Some (String c r)) = Some a /\ a <> "".
Proof.
  intros Hc.
  rewrite clean_whitespace_words. eexists; split; [reflexivity|].
  pose proof (words_head c r Hc) as Hne.
  pose proof (words_nonempty (String c r)) as Hall.
  pose proof (join_empty _ Hall) as Hj.
  destruct (words (String c r)) as [|w ws]; [congruence|].
  intros Habs. rewrite Habs in Hj. discriminate.
Qed.

Lemma clean_nonempty_stripped (s : string) :
  strip s <> "" ->
  exists a, _clean_whitespace (Some (strip s)) = Some a /\ a <> "".
Proof.
  intros Hne. destruct (strip s) as [|c r] eqn:Hs; [congruence|].
  apply clean_visible. now apply (strip_head s c r).
Qed.

Lemma stripped_strings_visible (n : node) :
  Forall (fun x => exists c r, x = String c r /\ isspace c = false)
    (Soup.stripped_strings n).
Proof.
  unfold Soup.stripped_strings. apply List.Forall_forall. intros x Hin.
  apply filter_In in Hin as [Hin Hne].
  apply list_elem_of_In, list_elem_of_omap in Hin as (d & _ & Hd).
  destruct d as [t|]; [|discriminate]. injection Hd as <-.
  destruct (strip t) as [|c r] eqn:Hs; [discriminate|].
  exists c, r. split; [reflexivity|]. now apply (strip_head t c r).
Qed.

(** A visible text that is not empty begins with a visible character. *)
Lemma get_text_visible (n : node) :
  Soup.get_text n <> "" ->
  exists c r, Soup.get_text n = String c r /\ isspace c = false.
Proof.
  unfold Soup.get_text. intros Hne.
  pose proof (stripped_strings_visible n) as Hall.
  destruct (Soup.stripped_strings n) as [|x xs]; [now cbn in Hne|].
  inversion Hall as [|? ? (c & r & -> & Hc) _]; subst.
  rewrite join_cons_char. eauto.
Qed.

Lemma first_meta_stripped (soup : node) (names : list string) (t : string) :
  _first_meta soup names = Some t -> exists c, t = strip c.
Proof.
  induction names as [|n names IH]; cbn [_first_meta]; [discriminate|].
  destruct (meta_content (Soup.find_attrs soup "meta" "name" n)) as [c|].
  { intros Heq. injection Heq as <-. eauto. }
  destruct (meta_content (Soup.find_attrs soup "meta" "property" n)) as [c|].
  { intros Heq. injection Heq as <-. eauto. }
  exact IH.
Qed.

Lemma truthy_nonempty (t : string) : t <> "" -> truthy (Some t) = true.
Proof. destruct t; [congruence|reflexivity]. Qed.

(** The first stage leaves nothing when Readability raises. *)
Lemma readability_fault_leaves_nothing `{Externals} (html : string) :
  readability_summary html = None -> readability_article html = None.
Proof. intros Hf. unfold readability_article. now rewrite Hf. Qed.

(** Title, description and heading are read off the parsed document alone. *)
Lemma parse_metadata_other_readability `{w : Externals} (summary : string -> option string)
    (html url : string) :
  option_map rec_title (@parse_metadata (with_readability summary w) html url)
  = option_map rec_title (parse_metadata html url)
  /\ option_map rec_description (@parse_metadata (with_readability summary w) html url)
     = option_map rec_description (parse_metadata html url)
  /\ option_map rec_heading (@parse_metadata (with_readability summary w) html url)
     = option_map rec_heading (parse_metadata html url).
Proof.
  unfold parse_metadata, with_readability. cbn [BeautifulSoup].
  destruct (BeautifulSoup html); cbn; auto.
Qed.

(** C9 (counterexample): Readability raises, a [main] element with text and
    a social title tag are there, and the article of the record is null,
    because the empty [article] element is the container that is taken. *)
Lemma empty_article_element_hides_main :
  @readability_summary Demo.world "odd" = None
  /\ @BeautifulSoup Demo.world "odd" = Some Demo.odd_soup
  /\ (exists m, Soup.find Demo.odd_soup "main" = Some m /\ Soup.get_text m = "text")
  /\ _first_meta Demo.odd_soup social_title_names = Some "Odd page"
  /\ option_map rec_article (@parse_metadata Demo.world "odd" "http://example.com/odd")
     = Some None.
Proof.
  split; [reflexivity|]. split; [reflexivity|]. split.
  - eexists. split; reflexivity.
  - split; reflexivity.
Qed.

(** C9 (amended): when Readability raises on a document whose first
    [article] element, or in its absence first [main] element, has visible
    text, and whose social title lookup gives a value that is not empty,
    the record has that title, whitespace normalized and not empty, and as
    article the text of that container, whitespace normalized and not
    empty; title, description and heading are the same under any other
    behaviour of Readability. *)
Theorem readability_fault_keeps_title_and_container_article `{w : Externals}
    (html url : string) (soup container : node) (t : string) :
  BeautifulSoup html = Some soup ->
  readability_summary html = None ->
  match Soup.find soup "article" with
  | Some a => Some a
  | None => Soup.find soup "main"
  end = Some container ->
  Soup.get_text container <> "" ->
  _first_meta soup social_title_names = Some t ->
  t <> "" ->
  exists r title article,
    parse_metadata html url = Some r
    /\ rec_title r = Some title /\ title <> ""
    /\ _clean_whitespace (Some t) = Some title
    /\ rec_article r = Some article /\ article <> ""
    /\ _clean_whitespace (Some (Soup.get_text container)) = Some article
    /\ forall summary,
         let r' := @parse_metadata (with_readability summary w) html url in
         option_map rec_title r' = Some (rec_title r)
         /\ option_map rec_description r' = Some (rec_description r)
         /\ option_map rec_heading r' = Some (rec_heading r).
Proof.
  intros Hsoup Hfault Hmain Htext Hmeta Ht.
  destruct (first_meta_stripped _ _ _ Hmeta) as [c ->].
  destruct (clean_nonempty_stripped c Ht) as (title & Htitle & Htne).
  destruct (get_text_visible container Htext) as (c0 & r0 & Hgt & Hc0).
  destruct (clean_visible c0 r0 Hc0) as (article & Hart & Hane).
  assert (Hrec : parse_metadata html url
                 = Some {| rec_url := url;
                           rec_title := Some title;
                           rec_description :=
                             _clean_whitespace (_first_meta soup description_names);
                           rec_heading := _clean_whitespace (resolve_heading soup);
                           rec_article := Some article |}).
  { unfold parse_metadata. rewrite Hsoup. do 2 f_equal.
    - unfold resolve_title, or_else. rewrite Hmeta.
      rewrite !(truthy_nonempty _ Ht). cbn [negb]. exact Htitle.
    - unfold resolve_article.
      rewrite (readability_fault_leaves_nothing html Hfault). cbn [truthy negb].
      unfold article_fallback. rewrite Hmain. unfold _text_or_none.
      rewrite Hgt. cbn [is_empty]. exact Hart. }
  eexists _, title, article. split; [exact Hrec|]. cbn [rec_title rec_article].
  repeat split; try assumption; try (now rewrite Hgt).
  all: destruct (parse_metadata_other_readability summary html url) as (H1 & H2 & H3);
    rewrite ?H1, ?H2, ?H3, Hrec; reflexivity.
Qed.

End Extraction.

(** ** URL normalization *)

Section Normalize.

Import PyStr Urllib.

Lemma append_nil (s : string) : "" ++ s = s.
Proof. reflexivity. Qed.

Lemma append_cons (c : ascii) (a b : string) : String c a ++ b = String c (a ++ b).
Proof. reflexivity. Qed.

Lemma contains_lstrip (c : ascii) (s : string) :
  contains c s = false -> contains c (lstrip s) = false.
Proof.
  induction s as [|d s IH]; cbn [lstrip contains]; [trivial|].
  destruct (Ascii.eqb c d) eqn:Hcd; [discriminate|]. intros Hs.
  destruct (isspace d); [auto|]. cbn [contains]. now rewrite Hcd.
Qed.

Lemma contains_rstrip (c : ascii) (s : string) :
  contains c s = false -> contains c (rstrip s) = false.
Proof.
  induction s as [|d s IH]; cbn [rstrip contains]; [trivial|].
  destruct (Ascii.eqb c d) eqn:Hcd; [discriminate|]. intros Hs.
  destruct (isspace d && is_empty (rstrip s)); [reflexivity|].
  cbn [contains]. rewrite Hcd. auto.
Qed.

Lemma contains_strip (c : ascii) (s : string) :
  contains c s = false -> contains c (strip s) = false.
Proof. intros Hs. unfold strip. now apply contains_rstrip, contains_lstrip. Qed.

Lemma rstrip_idempotent (s : string) : rstrip (rstrip s) = rstrip s.
Proof.
  induction s as [|d s IH]; [reflexivity|]. cbn [rstrip].
  destruct (isspace d && is_empty (rstrip s)) eqn:Hd; [reflexivity|].
  cbn [rstrip]. now rewrite IH, Hd.
Qed.

Lemma lstrip_visible (s : string) :
  match s with String c _ => isspace c = false | EmptyString => True end ->
  lstrip s = s.
Proof. destruct s as [|c s]; cbn [lstrip]; [trivial|]. now intros ->. Qed.

Lemma strip_idempotent (s : string) : strip (strip s) = strip s.
Proof.
  unfold strip. rewrite (lstrip_visible (rstrip (lstrip s))).
  - apply rstrip_idempotent.
  - destruct (rstrip (lstrip s)) as [|c r] eqn:Hr; [trivial|].
    now apply (strip_head s c r).
Qed.

Lemma rstrip_visible_end (s : string) (c : ascii) :
  isspace c = false -> rstrip (s ++ String c "") = s ++ String c "".
Proof.
  intros Hc. induction s as [|d s IH]; rewrite ?append_nil, ?append_cons; cbn [rstrip].
  - now rewrite Hc.
  - rewrite IH. destruct (s ++ String c "") eqn:Hs.
    + destruct s; discriminate.
    + cbn [is_empty]. now rewrite andb_false_r.
Qed.

Lemma urldefrag_no_fragment (s : string) :
  contains "#" s = false -> urldefrag s = (s, "").
Proof. intros Hs. unfold urldefrag. now rewrite Hs. Qed.

Lemma all_chars_app (p : ascii -> bool) (a b : string) :
  all_chars p (a ++ b) = all_chars p a && all_chars p b.
Proof.
  induction a as [|c a IH]; rewrite ?append_nil, ?append_cons; cbn [all_chars];
    [reflexivity|].
  now rewrite IH, andb_assoc.
Qed.

Lemma remove_unsafe_safe (s : string) : all_chars safe_char (remove_unsafe s) = true.
Proof.
  induction s as [|c s IH]; cbn [remove_unsafe]; [reflexivity|].
  destruct ((ord c =? 9) || (ord c =? 13) || (ord c =? 10))%N eqn:Hc; [exact IH|].
  cbn [all_chars]. unfold safe_char at 1. cbn zeta. now rewrite Hc.
Qed.

Lemma remove_unsafe_id (s : string) :
  all_chars safe_char s = true -> remove_unsafe s = s.
Proof.
  induction s as [|c s IH]; cbn [remove_unsafe all_chars]; [reflexivity|].
  intros Hs. apply andb_prop in Hs as [Hc Hs]. unfold safe_char in Hc.
  cbn zeta in Hc. apply negb_true_iff in Hc. rewrite Hc. now rewrite IH.
Qed.

Lemma all_chars_split_once (p : ascii -> bool) (c : ascii) (s : string) :
  all_chars p s = true ->
  all_chars p (fst (split_once c s)) = true
  /\ all_chars p (snd (split_once c s)) = true.
Proof.
  induction s as [|d s IH]; cbn [split_once all_chars]; [now split|].
  intros Hs. apply andb_prop in Hs as [Hd Hs].
  destruct (Ascii.eqb c d); [now split|].
  destruct (split_once c s) as [a b]. cbn [fst snd] in *.
  destruct (IH Hs) as [Ha Hb]. cbn [all_chars]. now rewrite Hd, Ha.
Qed.

Lemma all_chars_cut_netloc (p : ascii -> bool) (s : string) :
  all_chars p s = true -> all_chars p (fst (cut_netloc s)) = true.
Proof.
  induction s as [|d s IH]; cbn [cut_netloc all_chars]; [trivial|].
  intros Hs. apply andb_prop in Hs as [Hd Hs].
  destruct (Ascii.eqb d "/" || Ascii.eqb d "?" || Ascii.eqb d "#"); [reflexivity|].
  destruct (cut_netloc s) as [n r]. cbn [fst] in *. cbn [all_chars].
  now rewrite Hd, IH.
Qed.

Lemma cut_netloc_chars (s : string) :
  all_chars netloc_char (fst (cut_netloc s)) = true.
Proof.
  induction s as [|d s IH]; cbn [cut_netloc]; [reflexivity|].
  destruct (Ascii.eqb d "/" || Ascii.eqb d "?" || Ascii.eqb d "#") eqn:Hd; [reflexivity|].
  destruct (cut_netloc s) as [n r]. cbn [fst] in *. cbn [all_chars].
  unfold netloc_char at 1. now rewrite Hd, IH.
Qed.

Lemma cut_netloc_at_slash (n rest : string) :
  all_chars netloc_char n = true ->
  cut_netloc (n ++ String "/" rest) = (n, String "/" rest).
Proof.
  induction n as [|c n IH]; rewrite ?append_nil, ?append_cons;
    cbn [all_chars cut_netloc]; [reflexivity|].
  intros Hn. apply andb_prop in Hn as [Hc Hn]. unfold netloc_char in Hc.
  apply negb_true_iff in Hc. now rewrite Hc, IH.
Qed.

Lemma contains_app_netloc (n rest : string) :
  all_chars netloc_char n = true ->
  contains "#" (n ++ rest) = contains "#" rest.
Proof.
  induction n as [|c n IH]; rewrite ?append_nil, ?append_cons;
    cbn [all_chars contains]; [reflexivity|].
  intros Hn. apply andb_prop in Hn as [Hc Hn]. unfold netloc_char in Hc.
  apply negb_true_iff in Hc. apply orb_false_elim in Hc as [_ Hc].
  rewrite Ascii.eqb_sym, Hc. auto.
Qed.

Lemma all_chars_skip (p : ascii -> bool) (n : nat) : forall s,
  all_chars p s = true -> all_chars p (skip n s) = true.
Proof.
  induction n as [|n IH]; intros [|c s]; cbn [skip all_chars]; trivial.
  intros Hs. apply andb_prop in Hs as [_ Hs]. auto.
Qed.

Lemma all_chars_split_scheme (p : ascii -> bool) (s : string) :
  all_chars p s = true -> all_chars p (snd (split_scheme s)) = true.
Proof.
  intros Hs. unfold split_scheme.
  destruct (contains ":" s); [|exact Hs].
  pose proof (all_chars_split_once p ":" s Hs) as [_ Hpost].
  destruct (split_once ":" s) as [pre post]. cbn [snd] in Hpost.
  destruct pre as [|c pre]; [exact Hs|].
  destruct (is_alpha c && all_chars scheme_char (String c pre)); assumption.
Qed.

(** The network location holds no TAB, CR or LF and none of [/], [?], [#]. *)
Lemma urlsplit_netloc_chars (s : string) :
  all_chars safe_char (netloc (urlsplit s)) = true
  /\ all_chars netloc_char (netloc (urlsplit s)) = true.
Proof.
  unfold urlsplit.
  pose proof (all_chars_split_scheme safe_char _ (remove_unsafe_safe (lstrip_c0 s))) as Hsafe.
  destruct (split_scheme (remove_unsafe (lstrip_c0 s))) as [sch u1]. cbn [snd] in Hsafe.
  destruct (startswith "//" u1).
  - unfold _splitnetloc.
    pose proof (all_chars_cut_netloc safe_char _ (all_chars_skip safe_char 2 u1 Hsafe)) as H1.
    pose proof (cut_netloc_chars (skip 2 u1)) as H2.
    destruct (cut_netloc (skip 2 u1)) as [n r]. cbn [fst] in H1, H2.
    destruct (split_if_contains "#" r) as [r1 f].
    destruct (split_if_contains "?" r1) as [r2 q]. now split.
  - destruct (split_if_contains "#" u1) as [r1 f].
    destruct (split_if_contains "?" r1) as [r2 q]. now split.
Qed.

Lemma urlparse_netloc (s : string) : netloc (urlparse s) = netloc (urlsplit s).
Proof.
  unfold urlparse.
  destruct (in_list (scheme (urlsplit s)) uses_params && contains ";" (path (urlsplit s)));
    [|reflexivity].
  destruct (_splitparams (path (urlsplit s))); reflexivity.
Qed.

Lemma urlparse_empty_scheme : scheme (urlparse "") = "".
Proof. reflexivity. Qed.

Lemma remove_unsafe_app (a b : string) :
  remove_unsafe (a ++ b) = remove_unsafe a ++ remove_unsafe b.
Proof.
  induction a as [|c a IH]; rewrite ?append_nil, ?append_cons; cbn [remove_unsafe];
    [reflexivity|].
  destruct ((ord c =? 9) || (ord c =? 13) || (ord c =? 10))%N;
    rewrite ?append_cons, IH; reflexivity.
Qed.

Lemma urlsplit_prefixed (pre sch rest : string) :
  lstrip_c0 (pre ++ rest) = pre ++ rest ->
  remove_unsafe pre = pre ->
  (forall x, split_scheme (pre ++ x) = (sch, "//" ++ x)) ->
  forall n, all_chars safe_char n = true -> all_chars netloc_char n = true ->
  rest = n ++ "/" ->
  urlsplit (pre ++ rest) = mkParseResult sch n "/" "" "" "".
Proof.
  intros Hl Hpre Hsch n Hsafe Hnet ->. unfold urlsplit.
  rewrite Hl, remove_unsafe_app, Hpre, Hsch.
  rewrite (remove_unsafe_id (n ++ "/")) by (rewrite all_chars_app, Hsafe; reflexivity).
  change (startswith "//" ("//" ++ n ++ "/")) with true. cbn iota.
  unfold _splitnetloc. change (skip 2 ("//" ++ n ++ "/")) with (n ++ "/").
  now rewrite (cut_netloc_at_slash n "" Hnet).
Qed.

(** Parsing a rebuilt [scheme://netloc/] gives back its parts. *)
Lemma urlparse_rebuilt (sch n : string) :
  sch = "http" \/ sch = "https" ->
  all_chars safe_char n = true ->
  all_chars netloc_char n = true ->
  urlparse (sch ++ "://" ++ n ++ "/") = mkParseResult sch n "/" "" "" "".
Proof.
  intros Hsch Hsafe Hnet. unfold urlparse.
  assert (Hsplit : urlsplit (sch ++ "://" ++ n ++ "/") = mkParseResult sch n "/" "" "" "").
  { destruct Hsch as [-> | ->].
    - apply (urlsplit_prefixed "http://" "http" (n ++ "/") eq_refl eq_refl
               (fun x => eq_refl) n Hsafe Hnet eq_refl).
    - apply (urlsplit_prefixed "https://" "https" (n ++ "/") eq_refl eq_refl
               (fun x => eq_refl) n Hsafe Hnet eq_refl). }
  rewrite Hsplit. cbn [scheme path].
  destruct Hsch as [-> | ->]; reflexivity.
Qed.

Lemma append_assoc (a b c : string) : (a ++ b) ++ c = a ++ b ++ c.
Proof.
  induction a as [|d a IH]; rewrite ?append_nil, ?append_cons; [reflexivity|].
  now rewrite IH.
Qed.

Lemma http_or_https (sch : string) :
  in_list sch ["http"; "https"] = true -> sch = "http" \/ sch = "https".
Proof.
  unfold in_list. cbn [existsb]. rewrite !orb_true_iff, !String.eqb_eq.
  intros [Hs|[Hs|Hs]]; [now left|now right|discriminate].
Qed.

(** A rebuilt [scheme://netloc/] is a fixed point. *)
Lemma normalize_url_rebuilt (sch n : string) :
  sch = "http" \/ sch = "https" ->
  all_chars safe_char n = true ->
  all_chars netloc_char n = true ->
  normalize_url (Some (sch ++ "://" ++ n ++ "/")) = Some (sch ++ "://" ++ n ++ "/").
Proof.
  intros Hsch Hsafe Hnet.
  pose proof (urlparse_rebuilt sch n Hsch Hsafe Hnet) as Hparse.
  assert (Hstrip : strip (sch ++ "://" ++ n ++ "/") = sch ++ "://" ++ n ++ "/").
  { unfold strip. rewrite lstrip_visible by (destruct Hsch as [-> | ->]; reflexivity).
    rewrite <- !append_assoc. now apply rstrip_visible_end. }
  assert (Hfrag : contains "#" (sch ++ "://" ++ n ++ "/") = false).
  { destruct Hsch as [-> | ->].
    - change (contains "#" ("http" ++ "://" ++ n ++ "/")) with (contains "#" (n ++ "/")).
      now rewrite contains_app_netloc.
    - change (contains "#" ("https" ++ "://" ++ n ++ "/")) with (contains "#" (n ++ "/")).
      now rewrite contains_app_netloc. }
  unfold normalize_url.
  replace (is_empty (sch ++ "://" ++ n ++ "/")) with false
    by (destruct Hsch as [-> | ->]; reflexivity).
  rewrite Hstrip, (urldefrag_no_fragment _ Hfrag), Hparse. cbn [scheme path netloc].
  destruct Hsch as [-> | ->]; reflexivity.
Qed.

(** Without a fragment mark in the input, normalizing twice gives what
    normalizing once gives. *)
Lemma normalize_url_idempotent_without_fragment (u : string) :
  contains "#" u = false ->
  normalize_url (normalize_url (Some u)) = normalize_url (Some u).
Proof.
  intros Hu. unfold normalize_url at 2 3.
  destruct (is_empty u); [reflexivity|].
  pose proof (contains_strip "#" u Hu) as Hs.
  rewrite (urldefrag_no_fragment _ Hs).
  destruct (is_empty (scheme (urlparse (strip u)))) eqn:Hsch; [reflexivity|].
  destruct (in_list (scheme (urlparse (strip u))) ["http"; "https"]
            && is_empty (path (urlparse (strip u)))) eqn:Hcase.
  - apply andb_prop in Hcase as [Hweb _].
    apply normalize_url_rebuilt; [now apply http_or_https| |];
      rewrite urlparse_netloc; apply urlsplit_netloc_chars.
  - unfold normalize_url.
    destruct (is_empty (strip u)) eqn:He.
    { destruct (strip u); [|discriminate]. now rewrite urlparse_empty_scheme in Hsch. }
    now rewrite strip_idempotent, (urldefrag_no_fragment _ Hs), Hsch, Hcase.
Qed.

End Normalize.

(** C7 (evaluation at the failing input): the fragment is removed after the
    trimming, so the blank before it stays, and a second normalization
    removes it. *)
Theorem normalize_url_leaves_blank_before_fragment :
  normalize_url (Some "http://a.com/ #x") = Some "http://a.com/ "
  /\ normalize_url (normalize_url (Some "http://a.com/ #x")) = Some "http://a.com/"
  /\ normalize_url (normalize_url (Some "http://a.com/ #x"))
     <> normalize_url (Some "http://a.com/ #x").
Proof. vm_compute. repeat split. discriminate. Qed.

(** ** Closed examples on the concrete world *)

Lemma fetch_html_error_status `{Externals} (history : list event) (url : string)
    (resp : Response) :
  http_get history url = Some resp ->
  400 <= status_code resp < 600 ->
  fetch_html history url = None.
Proof.
  intros Hget Hs. unfold fetch_html. rewrite Hget.
  destruct (400 <=? status_code resp) eqn:H1; [|lia].
  destruct (status_code resp <? 600) eqn:H2; [reflexivity|lia].
Qed.

(** C1 (evaluation at the failing input): the first start URL answers 404,
    [fetch_html] raises, and after the iteration the fetch has been made,
    the counter is still zero, there is no record and the frontier holds
    the next entry; at the end of the run two fetches were made under a
    budget of one. *)
Theorem fetch_that_raises_is_not_counted :
  let st0 := init Demo.cfg_404 in
  let st1 := @loop_body Demo.world Demo.cfg_404 st0 in
  let st3 := @run Demo.world Demo.cfg_404 5 st0 in
  to_visit st0 = [("http://example.com/articles/404", None); (Demo.home, None)]
  /\ option_map status_code
       (@http_get Demo.world [] "http://example.com/articles/404") = Some 404
  /\ @fetch_html Demo.world [] "http://example.com/articles/404" = None
  /\ trace st1 = [Fetch "http://example.com/articles/404"]
  /\ num_requests st1 = 0
  /\ results st1 = []
  /\ to_visit st1 = [(Demo.home, None)]
  /\ fetched (trace st3) = ["http://example.com/articles/404"; Demo.home]
  /\ num_requests st3 = 1
  /\ max_requests_per_crawl Demo.cfg_404 = 1.
Proof. vm_compute. repeat split. Qed.

(** C3 (evaluation at the failing input): under a budget of one the run
    makes two fetches.  The first start URL answers 404: the fetch has been
    made and the counter is still zero, so the loop condition holds again
    and the second start URL is fetched as well; only then is the counter
    at the budget and the loop over. *)
Theorem fetch_attempts_exceed_budget :
  let st0 := init Demo.cfg_404 in
  let st1 := @loop_body Demo.world Demo.cfg_404 st0 in
  let st2 := @loop_body Demo.world Demo.cfg_404 st1 in
  max_requests_per_crawl Demo.cfg_404 = 1
  /\ loop_cond Demo.cfg_404 st0 = true
  /\ fetched (trace st1) = ["http://example.com/articles/404"]
  /\ num_requests st1 = 0
  /\ loop_cond Demo.cfg_404 st1 = true
  /\ fetched (trace st2) = ["http://example.com/articles/404"; Demo.home]
  /\ num_requests st2 = 1
  /\ loop_cond Demo.cfg_404 st2 = false
  /\ @crawl_loop Demo.world Demo.cfg_404 2 st0 = Some st2
  /\ Z.of_nat (length (fetched (trace st2))) = 2
  /\ max_requests_per_crawl Demo.cfg_404 < Z.of_nat (length (fetched (trace st2))).
Proof. vm_compute. repeat split. Qed.

(** Scenario 1 of the specification: the home page is fetched, its link to
    the article is followed, and the crawl returns the one record of the
    article. *)
Example crawl_returns_the_article :
  option_map (List.map rec_url) (@crawl Demo.world Demo.cfg 10)
  = Some [Demo.article_1].
Proof. vm_compute. reflexivity. Qed.

(** Scenario 2 of the specification: two links that differ by the fragment
    give one link. *)
Example fragment_links_collapse :
  @find_links Demo.world "fragments" "http://x.com/" = Some ["http://x.com/a"].
Proof. vm_compute. reflexivity. Qed.

(** After four iterations on the concrete site the head of the frontier is
    a visited URL, and the next iteration only drops it. *)
Lemma at_most_one_fetch_per_url_witness :
  let st := @run Demo.world Demo.cfg 4 (init Demo.cfg) in
  NoDup (fetched (trace st))
  /\ to_visit st = [(Demo.about, Some "http://example.com/page/2")]
  /\ Demo.about ∈ visited st
  /\ @loop_body Demo.world Demo.cfg st
     = mkState [] (visited st) (results st) (num_requests st) (trace st).
Proof.
  cbn zeta.
  pose proof (@at_most_one_fetch_per_url Demo.world Demo.cfg 4) as (Hnd & _ & Hdeq).
  assert (Hq : to_visit (@run Demo.world Demo.cfg 4 (init Demo.cfg))
               = [(Demo.about, Some "http://example.com/page/2")])
    by (vm_compute; reflexivity).
  assert (Hin : Demo.about ∈ visited (@run Demo.world Demo.cfg 4 (init Demo.cfg)))
    by (vm_compute; reflexivity).
  split; [exact Hnd|]. split; [exact Hq|]. split; [exact Hin|].
  exact (proj1 (Hdeq _ _ _ Hq) Hin).
Defined.

(** The budget of the concrete configuration is five, and the counter is
    within it after four iterations. *)
Lemma budget_counter_witness :
  0 <= max_requests_per_crawl Demo.cfg
  /\ num_requests (@run Demo.world Demo.cfg 4 (init Demo.cfg)) <= 5.
Proof.
  assert (Hmax : 0 <= max_requests_per_crawl Demo.cfg) by (vm_compute; discriminate).
  split; [exact Hmax|].
  exact (proj2 (proj1 (@budget_counter_never_exceeds_maximum Demo.world Demo.cfg 4 Hmax))).
Defined.

(** The first start URL matches the ignore pattern: no fetch, no count. *)
Lemma ignored_url_witness :
  let st := @run Demo.world Demo.cfg_private 0 (init Demo.cfg_private) in
  to_visit st = [("http://example.com/private/key", None); (Demo.home, None)]
  /\ @should_ignore Demo.world "http://example.com/private/key"
       (ignore_url_globs Demo.cfg_private) = true
  /\ trace (@loop_body Demo.world Demo.cfg_private st) = trace st
  /\ num_requests (@loop_body Demo.world Demo.cfg_private st) = num_requests st
  /\ results (@loop_body Demo.world Demo.cfg_private st) = results st
  /\ to_visit (@loop_body Demo.world Demo.cfg_private st) = [(Demo.home, None)].
Proof.
  cbn zeta. split; [reflexivity|]. split; [reflexivity|].
  pose proof (@ignored_url_is_never_fetched Demo.world Demo.cfg_private 0) as [_ Hdeq].
  exact (Hdeq "http://example.com/private/key" None [(Demo.home, None)]
           eq_refl eq_refl).
Defined.

(** Without patterns the home page is extracted and its links are
    discovered in the same iteration: the results hold its record, and the
    frontier the four links to its own host. *)
Lemma extraction_witness :
  to_visit (init Demo.cfg_open) = [(Demo.home, None)]
  /\ @fetch_html Demo.world [] Demo.home = Some ("home", Demo.home, 200)
  /\ @BeautifulSoup Demo.world "home" = Some Demo.home_soup
  /\ bracket_free Demo.home = true
  /\ hrefs_bracket_free Demo.home_soup = true
  /\ trace (@loop_body Demo.world Demo.cfg_open (init Demo.cfg_open))
     = [Fetch Demo.home; Extract Demo.home; Discover Demo.home]
  /\ results (@loop_body Demo.world Demo.cfg_open (init Demo.cfg_open))
     = [mkPageRecord Demo.home None None None None]
  /\ to_visit (@loop_body Demo.world Demo.cfg_open (init Demo.cfg_open))
     = [(Demo.article_1, Some Demo.home);
        ("http://example.com/page/2", Some Demo.home);
        (Demo.about, Some Demo.home);
        ("http://example.com/private/key", Some Demo.home)].
Proof.
  split; [reflexivity|]. split; [reflexivity|]. split; [reflexivity|].
  split; [reflexivity|]. split; [reflexivity|].
  destruct (@extraction_iff_content_page Demo.world Demo.cfg_open (init Demo.cfg_open)
              Demo.home None [] "home" Demo.home 200
              eq_refl eq_refl eq_refl eq_refl eq_refl eq_refl eq_refl)
    as (calls & Htrace & _ & _ & _ & _ & _ & Hsoup & Hopen).
  destruct (Hopen eq_refl eq_refl) as (_ & Hcontent & Hcalls).
  destruct (Hsoup Demo.home_soup eq_refl) as [Hresults Hfrontier].
  split; [rewrite Htrace, Hcalls; reflexivity|].
  split; [rewrite (Hresults Hcontent); reflexivity|].
  rewrite (Hfrontier ltac:(discriminate) eq_refl). vm_compute. reflexivity.
Defined.

(** The link to the page on the same host, which no pattern matches, is
    enqueued from the home page; the link to the other host is not. *)
Lemma links_followed_witness :
  to_visit (init Demo.cfg) = [(Demo.home, None)]
  /\ @fetch_html Demo.world [] Demo.home = Some ("home", Demo.home, 200)
  /\ @find_links Demo.world "home" Demo.home
     = Some [Demo.article_1; "http://example.com/page/2"; "http://other.org/x";
             Demo.about; "http://example.com/private/key"]
  /\ bracket_free Demo.home = true
  /\ hrefs_bracket_free Demo.home_soup = true
  /\ exists new,
       to_visit (@loop_body Demo.world Demo.cfg (init Demo.cfg)) = new
       /\ (Demo.about, Some Demo.home) ∈ new
       /\ ~ ("http://other.org/x", Some Demo.home) ∈ new.
Proof.
  split; [reflexivity|]. split; [reflexivity|]. split; [reflexivity|].
  split; [reflexivity|]. split; [reflexivity|].
  destruct (@links_followed_by_class_or_netloc Demo.world Demo.cfg (init Demo.cfg)
              Demo.home None [] "home" Demo.home 200
              eq_refl eq_refl eq_refl eq_refl eq_refl eq_refl eq_refl)
    as (_ & _ & Hfollow).
  destruct (Hfollow ltac:(discriminate) Demo.home_soup eq_refl eq_refl)
    as (links & new & Hlinks & Hq & Hnew).
  exists new. split; [exact Hq|].
  assert (Hl : links = [Demo.article_1; "http://example.com/page/2";
                         "http://other.org/x"; Demo.about;
                         "http://example.com/private/key"])
    by (vm_compute in Hlinks; now injection Hlinks as <-).
  split.
  - apply Hnew. exists Demo.about, Demo.about.
    split; [rewrite Hl; vm_compute; repeat constructor|].
    split; [reflexivity|]. split; [reflexivity|]. split; [discriminate|].
    split; [vm_compute; discriminate|]. split; [reflexivity|].
    right. right. split; reflexivity.
  - intros Hin. apply Hnew in Hin as (link & norm & _ & _ & He & _ & _ & _ & Hclass).
    injection He as <-.
    destruct Hclass as [Hc|[Hc|[_ Hc]]]; vm_compute in Hc; discriminate.
Defined.

(** C6 (counterexample): the one link of the page is to the host of the
    page, written with its port.  It is discovered, it normalizes to
    itself, it is not visited and not ignored, it classifies unknown as the
    page does, and its host is the host of the page; its network location
    is another, and it is not enqueued. *)
Lemma same_host_other_port_is_not_followed :
  let w := Demo.single_page (Some (mkResponse "page" Demo.home 200)) Demo.port_soup in
  let link := "http://example.com:80/x" in
  let st := init Demo.cfg in
  let class x :=
    @classify_url w x (scrape_url_globs Demo.cfg) (pagination_url_globs Demo.cfg) in
  to_visit st = [(Demo.home, None)]
  /\ @fetch_html w [] Demo.home = Some ("page", Demo.home, 200)
  /\ page_url Demo.home Demo.home = Demo.home
  /\ class Demo.home = unknown
  /\ @find_links w "page" Demo.home = Some [link]
  /\ normalize_url (Some link) = Some link
  /\ (link ∉ ({[Demo.home]} ∪ visited st : gset string))
  /\ @should_ignore w link (ignore_url_globs Demo.cfg) = false
  /\ class link = unknown
  /\ Urllib.hostname (Urllib.netloc (Urllib.urlparse link)) = "example.com"
  /\ Urllib.hostname (Urllib.netloc (Urllib.urlparse Demo.home)) = "example.com"
  /\ Urllib.netloc (Urllib.urlparse link) = "example.com:80"
  /\ Urllib.netloc (Urllib.urlparse Demo.home) = "example.com"
  /\ trace (@loop_body w Demo.cfg st) = [Fetch Demo.home; Discover Demo.home]
  /\ to_visit (@loop_body w Demo.cfg st) = [].
Proof.
  cbn zeta. repeat split; try (vm_compute; reflexivity).
  vm_compute. discriminate.
Qed.

(** Readability raises on the article page; title and article are there. *)
Lemma readability_fault_witness :
  @BeautifulSoup Demo.world "article" = Some Demo.article_soup
  /\ @readability_summary Demo.world "article" = None
  /\ exists r,
       @parse_metadata Demo.world "article" Demo.article_1 = Some r
       /\ rec_title r = Some "First post"
       /\ rec_article r = Some "Hello world".
Proof.
  split; [reflexivity|]. split; [reflexivity|].
  destruct (@readability_fault_keeps_title_and_container_article Demo.world
              "article" Demo.article_1 Demo.article_soup
              (Tag "article" []
                 [Tag "p" [] [NavigableString " Hello "];
                  Tag "p" [] [NavigableString "world"]])
              "First  post" eq_refl eq_refl eq_refl
              ltac:(discriminate) eq_refl ltac:(discriminate))
    as (r & title & article & Hrec & Htitle & _ & Hct & Hart & _ & Hca & _).
  exists r. split; [exact Hrec|]. split.
  - rewrite Htitle, <- Hct. reflexivity.
  - rewrite Hart, <- Hca. reflexivity.
Defined.

(** The crawl of the concrete site returns. *)
Lemma crawl_terminates_witness :
  (exists fuel recs, @crawl Demo.world Demo.cfg fuel = Some recs)
  /\ to_visit (init Demo.cfg) = [(Demo.home, None)]
  /\ exists new,
       to_visit (@loop_body Demo.world Demo.cfg (init Demo.cfg)) = new
       /\ (new <> [] ->
           num_requests (@loop_body Demo.world Demo.cfg (init Demo.cfg)) = 1).
Proof.
  destruct (@crawl_loop_terminates Demo.world Demo.cfg) as (Hret & _ & Hstep).
  split; [exact Hret|]. split; [reflexivity|].
  exact (Hstep (init Demo.cfg) Demo.home None [] eq_refl).
Defined.

(** ** More on URL normalization *)

Section NormalizeParts.

Import PyStr Urllib.

Lemma contains_app (c : ascii) (a b : string) :
  contains c (a ++ b) = contains c a || contains c b.
Proof.
  induction a as [|d a IH]; rewrite ?append_nil, ?append_cons; cbn [contains];
    [reflexivity|].
  destruct (Ascii.eqb c d); [reflexivity|exact IH].
Qed.

Lemma contains_all_chars (p : ascii -> bool) (c : ascii) (s : string) :
  all_chars p s = true -> p c = false -> contains c s = false.
Proof.
  intros Hs Hc. induction s as [|d s IH]; cbn [contains all_chars] in *; [reflexivity|].
  apply andb_prop in Hs as [Hd Hs].
  destruct (Ascii.eqb c d) eqn:Hcd; [|auto].
  apply Ascii.eqb_eq in Hcd. subst d. congruence.
Qed.

Lemma contains_lower_hash (s : string) : contains "#" (lower s) = contains "#" s.
Proof.
  induction s as [|c s IH]; cbn [lower contains]; [reflexivity|]. rewrite IH.
  destruct c as [[] [] [] [] [] [] [] []]; reflexivity.
Qed.

Lemma split_once_fst_free (c : ascii) (s : string) :
  contains c (fst (split_once c s)) = false.
Proof.
  induction s as [|d s IH]; cbn [split_once]; [reflexivity|].
  destruct (Ascii.eqb c d) eqn:Hcd; [reflexivity|].
  destruct (split_once c s) as [a b]. cbn [fst contains] in *. now rewrite Hcd.
Qed.

Lemma contains_split_once (c d : ascii) (s : string) :
  contains c s = false ->
  contains c (fst (split_once d s)) = false
  /\ contains c (snd (split_once d s)) = false.
Proof.
  induction s as [|e s IH]; cbn [split_once contains]; [now split|].
  destruct (Ascii.eqb c e) eqn:Hce; [discriminate|]. intros Hs.
  destruct (Ascii.eqb d e); [now split|].
  destruct (split_once d s) as [a b]. cbn [fst snd contains] in *.
  rewrite Hce. now apply IH.
Qed.

Lemma contains_skip (c : ascii) (n : nat) : forall s,
  contains c s = false -> contains c (skip n s) = false.
Proof.
  induction n as [|n IH]; intros [|d s]; cbn [skip contains]; trivial.
  destruct (Ascii.eqb c d); [discriminate|]. apply IH.
Qed.

Lemma contains_cut_netloc (c : ascii) (s : string) :
  contains c s = false ->
  contains c (fst (cut_netloc s)) = false
  /\ contains c (snd (cut_netloc s)) = false.
Proof.
  induction s as [|d s IH]; cbn [cut_netloc contains]; [now split|].
  destruct (Ascii.eqb c d) eqn:Hcd; [discriminate|]. intros Hs.
  destruct (Ascii.eqb d "/" || Ascii.eqb d "?" || Ascii.eqb d "#").
  - cbn [fst snd contains]. now rewrite Hcd.
  - destruct (cut_netloc s) as [n r]. cbn [fst snd contains] in *.
    rewrite Hcd. now apply IH.
Qed.

Lemma contains_lstrip_c0 (c : ascii) (s : string) :
  contains c s = false -> contains c (lstrip_c0 s) = false.
Proof.
  induction s as [|d s IH]; cbn [lstrip_c0 contains]; [trivial|].
  destruct (Ascii.eqb c d) eqn:Hcd; [discriminate|]. intros Hs.
  destruct (ord d <=? 32)%N; [auto|]. cbn [contains]. now rewrite Hcd.
Qed.

Lemma contains_remove_unsafe (c : ascii) (s : string) :
  contains c s = false -> contains c (remove_unsafe s) = false.
Proof.
  induction s as [|d s IH]; cbn [remove_unsafe contains]; [trivial|].
  destruct (Ascii.eqb c d) eqn:Hcd; [discriminate|]. intros Hs.
  destruct ((ord d =? 9) || (ord d =? 13) || (ord d =? 10))%N; [auto|].
  cbn [contains]. rewrite Hcd. auto.
Qed.

Lemma contains_rsplit_keep (c d : ascii) (s a b : string) :
  contains c s = false -> rsplit_keep d s = Some (a, b) ->
  contains c a = false /\ contains c b = false.
Proof.
  revert a b. induction s as [|e s IH]; intros a b; cbn [rsplit_keep contains];
    [discriminate|].
  destruct (Ascii.eqb c e) eqn:Hce; [discriminate|]. intros Hs.
  destruct (rsplit_keep d s) as [[a' b']|].
  - intros Heq. injection Heq as <- <-. destruct (IH a' b' Hs eq_refl) as [Ha Hb].
    cbn [contains]. now rewrite Hce.
  - destruct (Ascii.eqb d e); [|discriminate].
    intros Heq. injection Heq as <- <-. cbn [contains]. now rewrite Hce.
Qed.

Lemma contains_splitparams (c : ascii) (s : string) :
  contains c s = false ->
  contains c (fst (_splitparams s)) = false
  /\ contains c (snd (_splitparams s)) = false.
Proof.
  intros Hs. unfold _splitparams.
  destruct (rsplit_keep "/" s) as [[dir base]|] eqn:Hr.
  - destruct (contains_rsplit_keep c "/" s dir base Hs Hr) as [Hd Hb].
    destruct (contains ";" base); [|now split].
    pose proof (contains_split_once c ";" base Hb) as [Ha Hb'].
    destruct (split_once ";" base) as [a b]. cbn [fst snd] in *.
    now rewrite contains_app, Hd, Ha.
  - now apply contains_split_once.
Qed.

Lemma contains_split_if (c d : ascii) (s : string) :
  contains c s = false ->
  contains c (fst (split_if_contains d s)) = false
  /\ contains c (snd (split_if_contains d s)) = false.
Proof.
  intros Hs. unfold split_if_contains.
  destruct (contains d s); [now apply contains_split_once|now split].
Qed.

Lemma split_if_fst_free (c : ascii) (s : string) :
  contains c (fst (split_if_contains c s)) = false.
Proof.
  unfold split_if_contains. destruct (contains c s) eqn:Hs; [|exact Hs].
  apply split_once_fst_free.
Qed.

Lemma contains_split_scheme_rest (c : ascii) (s : string) :
  contains c s = false -> contains c (snd (split_scheme s)) = false.
Proof.
  intros Hs. unfold split_scheme.
  destruct (contains ":" s); [|exact Hs].
  pose proof (contains_split_once c ":" s Hs) as [_ Hpost].
  destruct (split_once ":" s) as [pre post]. cbn [snd] in Hpost.
  destruct pre as [|e pre]; [exact Hs|].
  destruct (is_alpha e && all_chars scheme_char (String e pre)); assumption.
Qed.

Lemma split_scheme_no_fragment_mark (s : string) :
  contains "#" (fst (split_scheme s)) = false.
Proof.
  unfold split_scheme. destruct (contains ":" s); [|reflexivity].
  destruct (split_once ":" s) as [pre post].
  destruct pre as [|e pre]; [reflexivity|].
  destruct (is_alpha e && all_chars scheme_char (String e pre)) eqn:Hok; [|reflexivity].
  apply andb_prop in Hok as [_ Hall]. cbn [fst].
  rewrite contains_lower_hash. now apply (contains_all_chars scheme_char).
Qed.

Lemma split_scheme_no_colon (s : string) :
  contains ":" s = false -> split_scheme s = ("", s).
Proof. intros Hs. unfold split_scheme. now rewrite Hs. Qed.

(** The parts that [urlsplit] cuts out of a text hold no character that the
    text does not hold. *)
Lemma urlsplit_parts_free (c : ascii) (s : string) :
  contains c s = false ->
  contains c (netloc (urlsplit s)) = false
  /\ contains c (path (urlsplit s)) = false
  /\ contains c (query (urlsplit s)) = false.
Proof.
  intros Hs. unfold urlsplit.
  pose proof (contains_split_scheme_rest c _
                (contains_remove_unsafe c _ (contains_lstrip_c0 c s Hs))) as H1.
  destruct (split_scheme (remove_unsafe (lstrip_c0 s))) as [sch u1]. cbn [snd] in H1.
  destruct (startswith "//" u1).
  - unfold _splitnetloc.
    pose proof (contains_cut_netloc c _ (contains_skip c 2 u1 H1)) as [Hn Hr].
    destruct (cut_netloc (skip 2 u1)) as [n r]. cbn [fst snd] in Hn, Hr.
    pose proof (contains_split_if c "#" r Hr) as [H3 _].
    destruct (split_if_contains "#" r) as [r1 f]. cbn [fst] in H3.
    pose proof (contains_split_if c "?" r1 H3) as [H4 H5].
    destruct (split_if_contains "?" r1) as [r2 q]. now repeat split.
  - pose proof (contains_split_if c "#" u1 H1) as [H3 _].
    destruct (split_if_contains "#" u1) as [r1 f]. cbn [fst] in H3.
    pose proof (contains_split_if c "?" r1 H3) as [H4 H5].
    destruct (split_if_contains "?" r1) as [r2 q]. now repeat split.
Qed.

(** Scheme, network location, path and query of [urlsplit] hold no
    fragment mark, whatever the text. *)
Lemma urlsplit_no_fragment_mark (s : string) :
  contains "#" (scheme (urlsplit s)) = false
  /\ contains "#" (netloc (urlsplit s)) = false
  /\ contains "#" (path (urlsplit s)) = false
  /\ contains "#" (query (urlsplit s)) = false.
Proof.
  pose proof (urlsplit_netloc_chars s) as [_ Hnet].
  split; [|split; [now apply (contains_all_chars netloc_char)|]].
  - unfold urlsplit.
    pose proof (split_scheme_no_fragment_mark (remove_unsafe (lstrip_c0 s))) as Hsch.
    destruct (split_scheme (remove_unsafe (lstrip_c0 s))) as [sch u1]. cbn [fst] in Hsch.
    destruct (startswith "//" u1).
    + destruct (_splitnetloc u1 2) as [n r].
      destruct (split_if_contains "#" r) as [r1 f].
      now destruct (split_if_contains "?" r1) as [r2 q].
    + destruct (split_if_contains "#" u1) as [r1 f].
      now destruct (split_if_contains "?" r1) as [r2 q].
  - unfold urlsplit.
    destruct (split_scheme (remove_unsafe (lstrip_c0 s))) as [sch u1].
    destruct (startswith "//" u1).
    + destruct (_splitnetloc u1 2) as [n r].
      pose proof (split_if_fst_free "#" r) as H3.
      destruct (split_if_contains "#" r) as [r1 f]. cbn [fst] in H3.
      pose proof (contains_split_if "#" "?" r1 H3) as [H4 H5].
      now destruct (split_if_contains "?" r1) as [r2 q].
    + pose proof (split_if_fst_free "#" u1) as H3.
      destruct (split_if_contains "#" u1) as [r1 f]. cbn [fst] in H3.
      pose proof (contains_split_if "#" "?" r1 H3) as [H4 H5].
      now destruct (split_if_contains "?" r1) as [r2 q].
Qed.

Lemma urlparse_scheme (s : string) : scheme (urlparse s) = scheme (urlsplit s).
Proof.
  unfold urlparse.
  destruct (in_list (scheme (urlsplit s)) uses_params && contains ";" (path (urlsplit s)));
    [|reflexivity].
  destruct (_splitparams (path (urlsplit s))); reflexivity.
Qed.

Lemma urlparse_query (s : string) : query (urlparse s) = query (urlsplit s).
Proof.
  unfold urlparse.
  destruct (in_list (scheme (urlsplit s)) uses_params && contains ";" (path (urlsplit s)));
    [|reflexivity].
  destruct (_splitparams (path (urlsplit s))); reflexivity.
Qed.

Lemma urlparse_path_params (c : ascii) (s : string) :
  contains c (path (urlsplit s)) = false ->
  contains c (path (urlparse s)) = false /\ contains c (params (urlparse s)) = false.
Proof.
  intros Hp. unfold urlparse.
  destruct (in_list (scheme (urlsplit s)) uses_params && contains ";" (path (urlsplit s))).
  - pose proof (contains_splitparams c _ Hp) as [H1 H2].
    destruct (_splitparams (path (urlsplit s))) as [p prm]. now split.
  - split; [exact Hp|]. unfold urlsplit.
    destruct (split_scheme _) as [sch u1].
    destruct (startswith "//" u1).
    + destruct (_splitnetloc u1 2) as [n r].
      destruct (split_if_contains "#" r) as [r1 f].
      now destruct (split_if_contains "?" r1) as [r2 q].
    + destruct (split_if_contains "#" u1) as [r1 f].
      now destruct (split_if_contains "?" r1) as [r2 q].
Qed.

(** Putting parts together gives no character that neither the parts nor
    the separators hold. *)
Lemma contains_urlunparse (c : ascii) (sch n p prm q : string) :
  contains c "/:;?" = false ->
  contains c sch = false -> contains c n = false -> contains c p = false ->
  contains c prm = false -> contains c q = false ->
  contains c (urlunparse sch n p prm q "") = false.
Proof.
  intros Hsep Hs Hn Hp Hprm Hq.
  assert (H1 : contains c "/" = false /\ contains c ":" = false
               /\ contains c ";" = false /\ contains c "?" = false).
  { cbn [contains] in *.
    destruct (Ascii.eqb c "/"); [discriminate|].
    destruct (Ascii.eqb c ":"); [discriminate|].
    destruct (Ascii.eqb c ";"); [discriminate|].
    destruct (Ascii.eqb c "?"); [discriminate|]. now repeat split. }
  destruct H1 as (Hsl & Hco & Hse & Hqu).
  assert (Hss : contains c "//" = false)
    by (change "//" with ("/" ++ "/"); now rewrite contains_app, Hsl).
  unfold urlunparse, urlunsplit. cbn [is_empty negb].
  repeat match goal with
         | |- context [if ?b then _ else _] => destruct b
         end;
    rewrite ?contains_app, ?Hs, ?Hn, ?Hp, ?Hprm, ?Hq, ?Hsl, ?Hco, ?Hse, ?Hqu, ?Hss;
    reflexivity.
Qed.

Lemma urldefrag_no_fragment_mark (s : string) :
  contains "#" (fst (urldefrag s)) = false.
Proof.
  unfold urldefrag. destruct (contains "#" s) eqn:Hs; [|exact Hs]. cbn [fst].
  destruct (urlsplit_no_fragment_mark s) as (H1 & H2 & H3 & H4).
  destruct (urlparse_path_params "#" s H3) as [H5 H6].
  apply contains_urlunparse; rewrite ?urlparse_scheme, ?urlparse_netloc, ?urlparse_query;
    auto.
Qed.

(** The URL that [normalize_url] returns holds no fragment mark. *)
Lemma normalize_url_no_fragment_mark (u : option string) (n : string) :
  normalize_url u = Some n -> contains "#" n = false.
Proof.
  unfold normalize_url. destruct u as [u|]; [|discriminate].
  destruct (is_empty u); [discriminate|].
  pose proof (urldefrag_no_fragment_mark (strip u)) as Hd.
  destruct (urldefrag (strip u)) as [url frag]. cbn [fst] in Hd.
  destruct (is_empty (scheme (urlparse url))); [discriminate|].
  destruct (in_list (scheme (urlparse url)) ["http"; "https"]
            && is_empty (path (urlparse url))) eqn:Hcase.
  - intros Heq. injection Heq as <-.
    destruct (urlsplit_no_fragment_mark url) as (H1 & H2 & _).
    rewrite urlparse_scheme, urlparse_netloc, !contains_app, H1, H2. reflexivity.
  - intros Heq. now injection Heq as <-.
Qed.

End NormalizeParts.

Section NormalizeMore.

Import PyStr Urllib.

Lemma contains_urlunparse_schemeless (c : ascii) (n p prm q : string) :
  contains c "/;?" = false ->
  contains c n = false -> contains c p = false ->
  contains c prm = false -> contains c q = false ->
  contains c (urlunparse "" n p prm q "") = false.
Proof.
  intros Hsep Hn Hp Hprm Hq.
  assert (H1 : contains c "/" = false /\ contains c ";" = false
               /\ contains c "?" = false).
  { cbn [contains] in *.
    destruct (Ascii.eqb c "/"); [discriminate|].
    destruct (Ascii.eqb c ";"); [discriminate|].
    destruct (Ascii.eqb c "?"); [discriminate|]. now repeat split. }
  destruct H1 as (Hsl & Hse & Hqu).
  assert (Hss : contains c "//" = false)
    by (change "//" with ("/" ++ "/"); now rewrite contains_app, Hsl).
  unfold urlunparse, urlunsplit. cbn [is_empty negb andb orb].
  repeat match goal with
         | |- context [if ?b then _ else _] => destruct b
         end;
    rewrite ?contains_app, ?Hn, ?Hp, ?Hprm, ?Hq, ?Hsl, ?Hse, ?Hqu, ?Hss;
    reflexivity.
Qed.

Lemma urlparse_scheme_no_colon (s : string) :
  contains ":" s = false -> scheme (urlparse s) = "".
Proof.
  intros Hs. rewrite urlparse_scheme. unfold urlsplit.
  rewrite (split_scheme_no_colon _
             (contains_remove_unsafe ":" _ (contains_lstrip_c0 ":" s Hs))).
  destruct (startswith "//" _).
  - destruct (_splitnetloc _ 2) as [n r].
    destruct (split_if_contains "#" r) as [r1 f].
    now destruct (split_if_contains "?" r1) as [r2 q].
  - destruct (split_if_contains "#" _) as [r1 f].
    now destruct (split_if_contains "?" r1) as [r2 q].
Qed.

Lemma rstrip_all_visible (s : string) :
  all_chars (fun c => negb (isspace c)) s = true -> rstrip s = s.
Proof.
  induction s as [|c s IH]; cbn [all_chars rstrip]; [reflexivity|].
  intros Hs. apply andb_prop in Hs as [Hc Hs]. apply negb_true_iff in Hc.
  rewrite Hc, IH by assumption. reflexivity.
Qed.

Lemma all_chars_weaken (p q : ascii -> bool) (s : string) :
  (forall c, p c = true -> q c = true) ->
  all_chars p s = true -> all_chars q s = true.
Proof.
  intros Hpq. induction s as [|c s IH]; cbn [all_chars]; [trivial|].
  intros Hs. apply andb_prop in Hs as [Hc Hs]. now rewrite (Hpq c Hc), IH.
Qed.

Lemma host_char_visible (c : ascii) : host_char c = true -> negb (isspace c) = true.
Proof. destruct c as [[] [] [] [] [] [] [] []]; try reflexivity; discriminate. Qed.

Lemma host_char_netloc (c : ascii) : host_char c = true -> netloc_char c = true.
Proof. destruct c as [[] [] [] [] [] [] [] []]; try reflexivity; discriminate. Qed.

Lemma host_char_safe (c : ascii) : host_char c = true -> safe_char c = true.
Proof. destruct c as [[] [] [] [] [] [] [] []]; try reflexivity; discriminate. Qed.

Lemma cut_netloc_all (n : string) :
  all_chars netloc_char n = true -> cut_netloc n = (n, "").
Proof.
  induction n as [|c n IH]; cbn [all_chars cut_netloc]; [reflexivity|].
  intros Hn. apply andb_prop in Hn as [Hc Hn]. unfold netloc_char in Hc.
  apply negb_true_iff in Hc. now rewrite Hc, IH.
Qed.

Lemma urlsplit_bare (pre sch n : string) :
  lstrip_c0 (pre ++ n) = pre ++ n ->
  remove_unsafe pre = pre ->
  (forall x, split_scheme (pre ++ x) = (sch, "//" ++ x)) ->
  all_chars safe_char n = true -> all_chars netloc_char n = true ->
  urlsplit (pre ++ n) = mkParseResult sch n "" "" "" "".
Proof.
  intros Hl Hpre Hsch Hsafe Hnet. unfold urlsplit.
  rewrite Hl, remove_unsafe_app, Hpre, Hsch, (remove_unsafe_id n Hsafe).
  change (startswith "//" ("//" ++ n)) with true. cbn iota.
  unfold _splitnetloc. change (skip 2 ("//" ++ n)) with n.
  now rewrite (cut_netloc_all n Hnet).
Qed.

Lemma urlparse_bare (sch n : string) :
  sch = "http" \/ sch = "https" ->
  all_chars host_char n = true ->
  urlparse (sch ++ "://" ++ n) = mkParseResult sch n "" "" "" "".
Proof.
  intros Hsch Hn.
  pose proof (all_chars_weaken _ _ n host_char_safe Hn) as Hsafe.
  pose proof (all_chars_weaken _ _ n host_char_netloc Hn) as Hnet.
  unfold urlparse.
  assert (Hsplit : urlsplit (sch ++ "://" ++ n) = mkParseResult sch n "" "" "" "").
  { destruct Hsch as [-> | ->].
    - apply (urlsplit_bare "http://" "http" n eq_refl eq_refl (fun x => eq_refl) Hsafe Hnet).
    - apply (urlsplit_bare "https://" "https" n eq_refl eq_refl (fun x => eq_refl) Hsafe Hnet). }
  rewrite Hsplit. cbn [scheme path].
  destruct Hsch as [-> | ->]; reflexivity.
Qed.

Lemma normalize_url_not_empty (u : option string) (n : string) :
  normalize_url u = Some n -> n <> "".
Proof.
  intros Hn. unfold normalize_url in Hn. destruct u as [u|]; [|discriminate].
  destruct (is_empty u); [discriminate|].
  destruct (urldefrag (strip u)) as [url frag].
  destruct (is_empty (scheme (urlparse url))) eqn:Hsch; [discriminate|].
  destruct (in_list (scheme (urlparse url)) ["http"; "https"]
            && is_empty (path (urlparse url))) eqn:Hcase.
  - apply andb_prop in Hcase as [Hweb _]. apply http_or_https in Hweb.
    injection Hn as <-. destruct Hweb as [-> | ->]; discriminate.
  - injection Hn as <-. intros ->. now rewrite urlparse_empty_scheme in Hsch.
Qed.

(** X1: a URL that [normalize_url] returns is not empty and holds no
    fragment mark. *)
Theorem normalize_url_strips_fragment (u : option string) (n : string) :
  normalize_url u = Some n -> n <> "" /\ contains "#" n = false.
Proof.
  intros Hn. split; [now apply (normalize_url_not_empty u)|].
  now apply (normalize_url_no_fragment_mark u).
Qed.

(** X2: a second normalization reaches a fixed point: normalizing a third
    time changes nothing, for every input. *)
Theorem normalize_url_twice_is_stable (u : option string) :
  normalize_url (normalize_url (normalize_url u)) = normalize_url (normalize_url u).
Proof.
  destruct (normalize_url u) as [n|] eqn:Hn; [|reflexivity].
  apply normalize_url_idempotent_without_fragment.
  now apply (normalize_url_no_fragment_mark u).
Qed.

(** X3: a text without a colon, the empty and the blank text among them,
    has no scheme and is rejected.  The text is taken without brackets,
    the only characters on which [urlsplit] can raise instead. *)
Theorem normalize_url_rejects_schemeless (u : string) :
  contains ":" u = false ->
  contains "[" u = false -> contains "]" u = false ->
  normalize_url (Some u) = None.
Proof.
  intros Hu _ _. unfold normalize_url.
  destruct (is_empty u); [reflexivity|].
  pose proof (contains_strip ":" u Hu) as Hs.
  assert (Hd : contains ":" (fst (urldefrag (strip u))) = false).
  { unfold urldefrag. destruct (contains "#" (strip u)); [|exact Hs]. cbn [fst].
    destruct (urlsplit_parts_free ":" (strip u) Hs) as (H1 & H2 & H3).
    destruct (urlparse_path_params ":" (strip u) H2) as [H4 H5].
    rewrite (urlparse_scheme_no_colon _ Hs).
    apply contains_urlunparse_schemeless;
      rewrite ?urlparse_netloc, ?urlparse_query; auto. }
  destruct (urldefrag (strip u)) as [url frag]. cbn [fst] in Hd.
  now rewrite (urlparse_scheme_no_colon url Hd).
Qed.

(** X4: a bare http or https host and its root-path form normalize to the
    same key, the root-path form. *)
Theorem normalize_url_bare_host_collapses (sch n : string) :
  sch = "http" \/ sch = "https" ->
  all_chars host_char n = true ->
  normalize_url (Some (sch ++ "://" ++ n)) = Some (sch ++ "://" ++ n ++ "/")
  /\ normalize_url (Some (sch ++ "://" ++ n ++ "/")) = Some (sch ++ "://" ++ n ++ "/").
Proof.
  intros Hsch Hn.
  pose proof (all_chars_weaken _ _ n host_char_safe Hn) as Hsafe.
  pose proof (all_chars_weaken _ _ n host_char_netloc Hn) as Hnet.
  pose proof (all_chars_weaken _ _ n host_char_visible Hn) as Hvis.
  split; [|now apply normalize_url_rebuilt].
  assert (Hstrip : strip (sch ++ "://" ++ n) = sch ++ "://" ++ n).
  { unfold strip. rewrite lstrip_visible by (destruct Hsch as [-> | ->]; reflexivity).
    apply rstrip_all_visible. rewrite !all_chars_app, Hvis.
    destruct Hsch as [-> | ->]; reflexivity. }
  assert (Hfrag : contains "#" (sch ++ "://" ++ n) = false).
  { rewrite !contains_app, (contains_all_chars netloc_char "#" n Hnet eq_refl).
    destruct Hsch as [-> | ->]; reflexivity. }
  unfold normalize_url.
  replace (is_empty (sch ++ "://" ++ n)) with false
    by (destruct Hsch as [-> | ->]; reflexivity).
  rewrite Hstrip, (urldefrag_no_fragment _ Hfrag), (urlparse_bare sch n Hsch Hn).
  cbn [scheme path netloc].
  destruct Hsch as [-> | ->]; reflexivity.
Qed.

End NormalizeMore.

(** ** More on whitespace normalization *)

Section CleanMore.

Import PyStr Urllib.

Lemma words_visible (s : string) :
  Forall (fun w => all_chars (fun c => negb (isspace c)) w = true) (words s).
Proof.
  induction s as [|c s IH]; cbn [words]; [constructor|].
  destruct (isspace c) eqn:Hc; [exact IH|].
  destruct s as [|c' s']; [repeat constructor; cbn; now rewrite Hc|].
  destruct (isspace c') eqn:Hc'.
  - constructor; [cbn; now rewrite Hc|exact IH].
  - destruct (words (String c' s')) as [|w ws]; [repeat constructor; cbn; now rewrite Hc|].
    inversion IH; subst. constructor; [cbn [all_chars]|assumption].
    now rewrite Hc.
Qed.

Lemma words_of_word (w : string) :
  is_empty w = false -> all_chars (fun c => negb (isspace c)) w = true ->
  words w = [w].
Proof.
  induction w as [|c w IH]; [discriminate|]. intros _ Hall.
  cbn [all_chars] in Hall. apply andb_prop in Hall as [Hc Hw].
  apply negb_true_iff in Hc. cbn [words]. rewrite Hc.
  destruct w as [|c' w']; [reflexivity|].
  pose proof Hw as Hw'. cbn [all_chars] in Hw'. apply andb_prop in Hw' as [Hc' _].
  apply negb_true_iff in Hc'. rewrite Hc', (IH eq_refl Hw). reflexivity.
Qed.

Lemma words_word_then_space (w rest : string) :
  is_empty w = false -> all_chars (fun c => negb (isspace c)) w = true ->
  words (w ++ " " ++ rest) = w :: words rest.
Proof.
  induction w as [|c w IH]; [discriminate|]. intros _ Hall.
  cbn [all_chars] in Hall. apply andb_prop in Hall as [Hc Hw].
  apply negb_true_iff in Hc. rewrite append_cons. cbn [words]. rewrite Hc.
  destruct w as [|c' w'].
  - rewrite append_nil, append_cons, append_nil.
    change (isspace " ") with true. cbn iota. reflexivity.
  - pose proof Hw as Hw'. cbn [all_chars] in Hw'. apply andb_prop in Hw' as [Hc' _].
    apply negb_true_iff in Hc'. rewrite append_cons, Hc'.
    rewrite <- append_cons, (IH eq_refl Hw). reflexivity.
Qed.

(** Splitting what was joined gives the words back. *)
Lemma words_join (ws : list string) :
  Forall (fun w => is_empty w = false) ws ->
  Forall (fun w => all_chars (fun c => negb (isspace c)) w = true) ws ->
  words (join " " ws) = ws.
Proof.
  induction ws as [|x ws IH]; intros Hne Hvis; [reflexivity|].
  inversion Hne as [|? ? Hx Hne']; inversion Hvis as [|? ? Hxv Hvis']; subst.
  destruct ws as [|y ws]; [now apply words_of_word|].
  change (join " " (x :: y :: ws)) with (x ++ " " ++ join " " (y :: ws)).
  rewrite (words_word_then_space x _ Hx Hxv), (IH Hne' Hvis'). reflexivity.
Qed.

Lemma all_chars_lstrip (p : ascii -> bool) (s : string) :
  all_chars p s = true -> all_chars p (lstrip s) = true.
Proof.
  induction s as [|c s IH]; cbn [lstrip all_chars]; [trivial|].
  intros Hs. destruct (isspace c); [|exact Hs].
  apply andb_prop in Hs as [_ Hs]. auto.
Qed.

Lemma all_chars_rstrip (p : ascii -> bool) (s : string) :
  all_chars p s = true -> all_chars p (rstrip s) = true.
Proof.
  induction s as [|c s IH]; cbn [rstrip all_chars]; [trivial|].
  intros Hs. apply andb_prop in Hs as [Hc Hs].
  destruct (isspace c && is_empty (rstrip s)); [reflexivity|].
  cbn [all_chars]. now rewrite Hc, IH.
Qed.

Lemma sub_ws_from_plain (b : bool) (s : string) :
  all_chars plain_char (sub_ws_from b s) = true.
Proof.
  revert b. induction s as [|c s IH]; intros b; cbn [sub_ws_from]; [reflexivity|].
  destruct (isspace c) eqn:Hc.
  - destruct b; [apply IH|]. cbn [all_chars]. now rewrite IH.
  - cbn [all_chars]. unfold plain_char at 1. now rewrite Hc, IH.
Qed.

Lemma no_adjacent_cons (a b : ascii) (r : string) :
  no_adjacent_spaces (String a (String b r))
  = negb (isspace a && isspace b) && no_adjacent_spaces (String b r).
Proof. reflexivity. Qed.

Lemma no_adjacent_lstrip (s : string) :
  no_adjacent_spaces s = true -> no_adjacent_spaces (lstrip s) = true.
Proof.
  induction s as [|c s IH]; cbn [lstrip]; [trivial|].
  intros Hs. destruct (isspace c); [|exact Hs]. apply IH.
  destruct s as [|d s]; [reflexivity|].
  cbn [no_adjacent_spaces] in Hs. now apply andb_prop in Hs as [_ Hs].
Qed.

Lemma no_adjacent_rstrip (s : string) :
  no_adjacent_spaces s = true -> no_adjacent_spaces (rstrip s) = true.
Proof.
  induction s as [|c s IH]; [trivial|]. intros Hs. cbn [rstrip].
  destruct (isspace c && is_empty (rstrip s)) eqn:Hend; [reflexivity|].
  destruct s as [|d s]; [reflexivity|].
  cbn [no_adjacent_spaces] in Hs. apply andb_prop in Hs as [Hcd Hs].
  specialize (IH Hs).
  destruct (rstrip (String d s)) as [|e r] eqn:Hr; [reflexivity|].
  destruct (rstrip_head _ _ _ Hr) as [r' Heq]. injection Heq as Hde _. subst e.
  now rewrite no_adjacent_cons, Hcd, IH.
Qed.

Lemma sub_ws_from_no_adjacent (s : string) : forall b,
  no_adjacent_spaces (sub_ws_from b s) = true.
Proof.
  induction s as [|c s IH]; intros b; [reflexivity|]. cbn [sub_ws_from].
  destruct (isspace c) eqn:Hc.
  - destruct b; [apply IH|].
    pose proof (sub_ws_run_lstrip s) as Hhead. specialize (IH true).
    destruct (sub_ws_from true s) as [|d r] eqn:Hr; [reflexivity|].
    rewrite no_adjacent_cons, IH.
    cbn [lstrip] in Hhead. destruct (isspace d) eqn:Hd; [|now rewrite andb_false_r].
    exfalso. apply (f_equal String.length) in Hhead.
    assert (Hlen : forall x, (String.length (lstrip x) <= String.length x)%nat).
    { induction x as [|e x IHx]; cbn [lstrip String.length]; [lia|].
      destruct (isspace e); cbn [String.length]; lia. }
    specialize (Hlen r). cbn [String.length] in Hhead. lia.
  - specialize (IH false).
    destruct (sub_ws_from false s) as [|d r] eqn:Hr; [reflexivity|].
    now rewrite no_adjacent_cons, Hc, IH.
Qed.

(** X5: whitespace normalization is idempotent. *)
Theorem clean_whitespace_idempotent (text : option string) :
  _clean_whitespace (_clean_whitespace text) = _clean_whitespace text.
Proof.
  destruct text as [[|c t]|]; try reflexivity.
  rewrite clean_whitespace_words.
  destruct (join " " (words (String c t))) as [|c' t'] eqn:Hj; [reflexivity|].
  rewrite clean_whitespace_words, <- Hj.
  now rewrite (words_join _ (words_nonempty _) (words_visible _)).
Qed.

(** X6: in a normalized text the only whitespace is the plain space, no two
    spaces are side by side, and there is none at either end. *)
Theorem clean_whitespace_result_shape (text : option string) (r : string) :
  _clean_whitespace text = Some r ->
  all_chars plain_char r = true
  /\ no_adjacent_spaces r = true
  /\ strip r = r.
Proof.
  destruct text as [[|c t]|]; [| |discriminate].
  - intros Heq. injection Heq as <-. now repeat split.
  - change (_clean_whitespace (Some (String c t)))
      with (Some (strip (sub_ws (String c t)))).
    intros Heq. injection Heq as <-. unfold sub_ws. split; [|split].
    + unfold strip. apply all_chars_rstrip, all_chars_lstrip, sub_ws_from_plain.
    + unfold strip. apply no_adjacent_rstrip, no_adjacent_lstrip, sub_ws_from_no_adjacent.
    + apply strip_idempotent.
Qed.

End CleanMore.

(** ** More on the extraction pipeline *)

Section ExtractionMore.

Import PyStr.

Lemma text_or_none_visible (n : option node) : visible_or_none (_text_or_none n).
Proof.
  destruct n as [n|]; cbn [_text_or_none]; [|exact I].
  destruct (is_empty (Soup.get_text n)) eqn:He; [exact I|].
  apply get_text_visible. intros Habs. now rewrite Habs in He.
Qed.

Lemma clean_visible_or_none (o : option string) :
  visible_or_none o -> _clean_whitespace o <> Some "".
Proof.
  destruct o as [t|]; [|discriminate].
  intros (c & r & -> & Hc). destruct (clean_visible c r Hc) as (a & Heq & Hne).
  rewrite Heq. congruence.
Qed.

Lemma resolve_heading_visible (soup : node) : visible_or_none (resolve_heading soup).
Proof.
  unfold resolve_heading.
  destruct (Soup.find soup "h1"); [apply text_or_none_visible|].
  destruct (Soup.find soup "h2"); [apply text_or_none_visible|exact I].
Qed.

Lemma article_fallback_visible (soup : node) (article : option string) :
  visible_or_none article -> visible_or_none (article_fallback soup article).
Proof.
  intros Hart. unfold article_fallback.
  destruct (Soup.find soup "article"); [apply text_or_none_visible|].
  destruct (Soup.find soup "main"); [apply text_or_none_visible|].
  destruct (List.filter _ _) as [|p ps] eqn:Hps; [exact Hart|].
  assert (Hin : In p (List.filter (fun p => negb (is_empty p))
                        (List.map Soup.get_text (Soup.find_all soup "p"))))
    by (rewrite Hps; now left).
  apply filter_In in Hin as [Hin Hne]. apply in_map_iff in Hin as (n & <- & _).
  destruct (get_text_visible n) as (c & r & Hgt & Hc).
  { intros Habs. now rewrite Habs in Hne. }
  cbn [firstn]. rewrite Hgt, join_cons_char. cbn [is_empty visible_or_none]. eauto.
Qed.

Lemma resolve_article_visible `{Externals} (html : string) (soup : node) :
  visible_or_none (resolve_article html soup).
Proof.
  assert (Hr : visible_or_none (readability_article html)).
  { unfold readability_article. destruct (readability_summary html); [|exact I].
    destruct (BeautifulSoup s); [apply text_or_none_visible|exact I]. }
  unfold resolve_article.
  destruct (negb (truthy (readability_article html)));
    [now apply article_fallback_visible|exact Hr].
Qed.

(** X7: the record carries the URL it was given, and its heading and its
    article are null or not empty, never the empty text. *)
Theorem record_heading_and_article_never_empty `{Externals}
    (html url : string) (r : PageRecord) :
  parse_metadata html url = Some r ->
  rec_url r = url /\ rec_heading r <> Some "" /\ rec_article r <> Some "".
Proof.
  unfold parse_metadata. destruct (BeautifulSoup html) as [soup|]; [|discriminate].
  intros Heq. injection Heq as <-. cbn [rec_url rec_heading rec_article].
  split; [reflexivity|]. split; apply clean_visible_or_none.
  - apply resolve_heading_visible.
  - apply resolve_article_visible.
Qed.

(** X8: with no usable social title and no usable title element, the title
    of a document that has a level-1 heading is the text of the first one,
    and so the same as the heading of the record. *)
Theorem title_falls_back_to_heading `{Externals}
    (html url : string) (soup h : node) :
  BeautifulSoup html = Some soup ->
  truthy (_first_meta soup social_title_names) = false ->
  truthy (title_element_text soup) = false ->
  Soup.find soup "h1" = Some h ->
  exists r,
    parse_metadata html url = Some r
    /\ rec_title r = _clean_whitespace (_text_or_none (Some h))
    /\ rec_title r = rec_heading r.
Proof.
  intros Hsoup Hmeta Htitle Hh1. unfold parse_metadata. rewrite Hsoup.
  eexists. split; [reflexivity|]. cbn [rec_title rec_heading].
  unfold resolve_title, resolve_heading, or_else. rewrite Hmeta, Htitle, Hh1.
  now split.
Qed.

End ExtractionMore.

(** ** Link discovery and pattern matching *)

Section Links.

Import PyStr.

Lemma dedup_In (x : string) (l : list string) : In x (dedup l) <-> In x l.
Proof.
  induction l as [|y l IH]; cbn [dedup]; [reflexivity|]. cbn [In].
  rewrite filter_In, IH, negb_true_iff, String.eqb_neq.
  destruct (String.eqb_spec y x); intuition congruence.
Qed.

Lemma NoDup_list_filter {A} (f : A -> bool) (l : list A) :
  NoDup l -> NoDup (List.filter f l).
Proof.
  induction 1 as [|x l Hx Hl IH]; cbn [List.filter]; [constructor|].
  destruct (f x); [|exact IH]. constructor; [|exact IH].
  rewrite list_elem_of_In, filter_In, <- list_elem_of_In. tauto.
Qed.

Lemma dedup_NoDup (l : list string) : NoDup (dedup l).
Proof.
  induction l as [|y l IH]; cbn [dedup]; constructor.
  - rewrite list_elem_of_In, filter_In, negb_true_iff, String.eqb_neq. tauto.
  - now apply NoDup_list_filter.
Qed.

Lemma link_of_anchor_spec `{Externals} (base_url : string) (a : node) (l : string) :
  link_of_anchor base_url a = Some l
  <-> exists href,
        Soup.get a "href" = Some href /\ href <> ""
        /\ Forall (fun p => startswith p href = false) skipped_prefixes
        /\ normalize_url (Some (urljoin base_url href)) = Some l.
Proof.
  unfold link_of_anchor. split.
  - destruct (Soup.get a "href") as [href|]; [|discriminate].
    destruct (is_empty href) eqn:He; [discriminate|].
    destruct (existsb _ skipped_prefixes) eqn:Hskip; [discriminate|].
    destruct (normalize_url _) as [n|] eqn:Hn; [|discriminate].
    destruct (is_empty n); [discriminate|].
    intros Heq. injection Heq as <-. exists href. split; [reflexivity|].
    split; [now destruct href|]. split; [|exact Hn].
    apply List.Forall_forall. intros p Hp.
    destruct (startswith p href) eqn:Hs; [|reflexivity].
    assert (Hex : existsb (fun p => startswith p href) skipped_prefixes = true)
      by (apply existsb_exists; eauto).
    congruence.
  - intros (href & -> & Hne & Hskip & Hn).
    destruct href as [|c href]; [congruence|]. cbn [is_empty].
    replace (existsb _ skipped_prefixes) with false.
    + rewrite Hn. destruct l; [|reflexivity].
      now destruct (normalize_url_not_empty _ _ Hn).
    + symmetry. apply not_true_is_false. intros Hex.
      apply existsb_exists in Hex as (p & Hp & Hs).
      rewrite List.Forall_forall in Hskip. rewrite (Hskip p Hp) in Hs. discriminate.
Qed.

(** X9: when the parser returns, on a base URL and hrefs without brackets
    (so that neither [urljoin] nor [normalize_url] can raise),
    [find_links] returns, without duplicates, exactly the normalized
    targets of the anchors whose [href] is not empty and begins with none
    of the skipped prefixes. *)
Theorem find_links_lists_each_target_once `{Externals}
    (html base_url : string) (soup : node) :
  BeautifulSoup html = Some soup ->
  bracket_free base_url = true ->
  hrefs_bracket_free soup = true ->
  exists links,
    find_links html base_url = Some links
    /\ NoDup links
    /\ forall l, l ∈ links <->
         exists a href,
           a ∈ Soup.find_all_with soup "a" "href"
           /\ Soup.get a "href" = Some href /\ href <> ""
           /\ Forall (fun p => startswith p href = false) skipped_prefixes
           /\ normalize_url (Some (urljoin base_url href)) = Some l.
Proof.
  intros Hsoup _ _. unfold find_links. rewrite Hsoup. eexists. split; [reflexivity|].
  split; [apply dedup_NoDup|]. intros l.
  rewrite list_elem_of_In, dedup_In, <- list_elem_of_In, list_elem_of_omap. split.
  - intros (a & Ha & Hl). apply link_of_anchor_spec in Hl as (href & Hrest).
    exists a, href. tauto.
  - intros (a & href & Ha & Hrest). exists a. split; [exact Ha|].
    apply link_of_anchor_spec. exists href. tauto.
Qed.

(** X10: every link that [find_links] returns is not empty, holds no
    fragment mark, and is normalized to a fixed point by one more
    normalization. *)
Theorem find_links_gives_fragment_free_links `{Externals}
    (html base_url : string) (links : list string) (l : string) :
  find_links html base_url = Some links ->
  l ∈ links ->
  l <> "" /\ contains "#" l = false
  /\ normalize_url (normalize_url (Some l)) = normalize_url (Some l).
Proof.
  unfold find_links. destruct (BeautifulSoup html) as [soup|]; [|discriminate].
  intros Heq Hin. injection Heq as <-.
  rewrite list_elem_of_In, dedup_In, <- list_elem_of_In, list_elem_of_omap in Hin.
  destruct Hin as (a & _ & Hl). apply link_of_anchor_spec in Hl as (href & _ & _ & _ & Hn).
  pose proof (normalize_url_no_fragment_mark _ _ Hn) as Hfrag.
  split; [now apply (normalize_url_not_empty _ _ Hn)|]. split; [exact Hfrag|].
  now apply normalize_url_idempotent_without_fragment.
Qed.

Lemma match_any_glob_iff `{Externals} (target : string) (globs : list string) :
  match_any_glob target globs = true
  <-> exists p, p ∈ globs /\ fnmatch target (replace_double_star p) = true.
Proof.
  unfold match_any_glob. rewrite existsb_exists.
  split; intros (p & Hp & Hm); exists p; (split; [|exact Hm]);
    now apply list_elem_of_In.
Qed.

Lemma match_any_glob_same_patterns `{Externals} (target : string) (l1 l2 : list string) :
  (forall p, p ∈ l1 <-> p ∈ l2) ->
  match_any_glob target l1 = match_any_glob target l2.
Proof.
  intros Hset.
  destruct (match_any_glob target l1) eqn:H1, (match_any_glob target l2) eqn:H2;
    try reflexivity.
  - apply match_any_glob_iff in H1 as (p & Hp & Hm).
    assert (H3 : match_any_glob target l2 = true)
      by (apply match_any_glob_iff; exists p; split; [now apply Hset|exact Hm]).
    congruence.
  - apply match_any_glob_iff in H2 as (p & Hp & Hm).
    assert (H3 : match_any_glob target l1 = true)
      by (apply match_any_glob_iff; exists p; split; [now apply Hset|exact Hm]).
    congruence.
Qed.

(** X11: the order of the patterns and their repetition do not matter: two
    lists with the same patterns match the same URLs, and so ignore and
    classify the same. *)
Theorem pattern_order_is_irrelevant `{Externals}
    (url : string) (scrape1 scrape2 pagination1 pagination2 ignore1 ignore2 : list string) :
  (forall p, p ∈ scrape1 <-> p ∈ scrape2) ->
  (forall p, p ∈ pagination1 <-> p ∈ pagination2) ->
  (forall p, p ∈ ignore1 <-> p ∈ ignore2) ->
  classify_url url scrape1 pagination1 = classify_url url scrape2 pagination2
  /\ should_ignore url ignore1 = should_ignore url ignore2.
Proof.
  intros Hs Hp Hi. unfold classify_url, should_ignore.
  now rewrite (match_any_glob_same_patterns url _ _ Hs),
    (match_any_glob_same_patterns url _ _ Hp),
    (match_any_glob_same_patterns url _ _ Hi).
Qed.

Lemma replace_double_star_cons (c : ascii) (r : string) :
  replace_double_star (String c r)
  = match r with
    | String d r' =>
        if Ascii.eqb c "*" && Ascii.eqb d "*"
        then String "*" (replace_double_star r')
        else String c (replace_double_star r)
    | EmptyString => String c EmptyString
    end.
Proof.
  destruct c as [[] [] [] [] [] [] [] []]; destruct r as [|d r']; try reflexivity.
  destruct d as [[] [] [] [] [] [] [] []]; reflexivity.
Qed.

Lemma replace_double_star_id (p : string) :
  has_double_star p = false -> replace_double_star p = p.
Proof.
  induction p as [|c p IH]; [reflexivity|]. intros Hp.
  rewrite replace_double_star_cons. destruct p as [|d p']; [reflexivity|].
  cbn [has_double_star] in Hp. apply orb_false_elim in Hp as [Hcd Hp].
  now rewrite Hcd, (IH Hp).
Qed.

(** X12: a list of patterns none of which holds two stars side by side is
    matched as it is written: the result is that of [fnmatch] on the
    patterns themselves. *)
Theorem patterns_without_double_star_are_kept `{Externals}
    (target : string) (globs : list string) :
  Forall (fun p => has_double_star p = false) globs ->
  match_any_glob target globs = existsb (fnmatch target) globs.
Proof.
  unfold match_any_glob. induction 1 as [|p globs Hp Hall IH]; [reflexivity|].
  cbn [existsb]. now rewrite (replace_double_star_id p Hp), IH.
Qed.

End Links.

(** ** More on the crawl loop *)

Section CrawlMore.

Import PyStr.

Context `{Externals} (cfg : CrawlConfig).

Ltac iteration_cases st Hne :=
  let Hit := fresh "Hit" in
  pose proof (loop_body_iteration cfg st Hne) as Hit;
  destruct Hit as [url referrer rest Hq Hseen
                  |url referrer rest Hq Hseen Hign
                  |url referrer rest Hq Hseen Hign Hfetch
                  |url referrer rest html final_url status Hq Hseen Hign Hfetch Huse
                  |url referrer rest html final_url status Hq Hseen Hign Hfetch Huse].

Lemma run_add (n k : nat) : forall st, run cfg (n + k) st = run cfg k (run cfg n st).
Proof.
  induction n as [|n IH]; intros st; cbn [Nat.add run]; [reflexivity|].
  destruct (loop_cond cfg st) eqn:Hc; [apply IH|].
  now rewrite run_halted.
Qed.

Lemma num_requests_within_budget (n : nat) :
  0 <= max_requests_per_crawl cfg ->
  num_requests (run cfg n (init cfg)) <= max_requests_per_crawl cfg.
Proof.
  intros Hmax.
  apply (run_invariant cfg (fun st => num_requests st <= max_requests_per_crawl cfg));
    [|exact Hmax].
  intros st Hst Hc. apply loop_cond_true in Hc as [_ Hlt].
  pose proof (loop_body_num_requests cfg st). lia.
Qed.

Lemma results_within_requests (n : nat) :
  Z.of_nat (length (results (run cfg n (init cfg))))
  <= num_requests (run cfg n (init cfg)).
Proof.
  apply (run_invariant cfg (fun st => Z.of_nat (length (results st)) <= num_requests st));
    [|cbn; lia].
  intros st Hst Hc. apply loop_cond_true in Hc as [Hne _].
  iteration_cases st Hne;
    rewrite ?process_page_results, ?process_page_num_requests; cbn zeta;
    cbn [results num_requests]; try lia.
  rewrite length_app.
  destruct (is_content_page cfg _); [|cbn [length]; lia].
  destruct (parse_metadata html _); cbn [length]; lia.
Qed.

(** X13: with a budget that is not negative, the crawl returns at most as
    many records as the budget allows requests. *)
Theorem crawl_returns_at_most_budget_records (fuel : nat) (recs : list PageRecord) :
  0 <= max_requests_per_crawl cfg ->
  crawl cfg fuel = Some recs ->
  Z.of_nat (length recs) <= max_requests_per_crawl cfg.
Proof.
  intros Hmax. unfold crawl.
  destruct (crawl_loop cfg fuel (init cfg)) as [st|] eqn:Hrun; [|discriminate].
  intros Heq. injection Heq as <-.
  apply crawl_loop_is_run in Hrun as [-> _].
  pose proof (results_within_requests fuel).
  pose proof (num_requests_within_budget fuel Hmax). lia.
Qed.

(** X14: with a budget of zero or less, or with no valid start URL, the
    loop is not entered: the crawl returns no record, whatever the fuel,
    and no fetch is made. *)
Theorem crawl_without_budget_or_seeds (fuel : nat) :
  max_requests_per_crawl cfg <= 0 \/ seed (start_urls cfg) = [] ->
  crawl cfg fuel = Some [] /\ run cfg fuel (init cfg) = init cfg.
Proof.
  intros Hedge.
  assert (Hc : loop_cond cfg (init cfg) = false).
  { unfold loop_cond, init. cbn [to_visit num_requests].
    destruct Hedge as [Hmax|Hseed].
    - destruct (0 <? max_requests_per_crawl cfg) eqn:Hlt; [lia|].
      now rewrite andb_false_r.
    - now rewrite Hseed. }
  split; [|now apply run_halted].
  unfold crawl. destruct fuel; cbn [crawl_loop]; now rewrite Hc.
Qed.

Lemma loop_body_grows (st : state) :
  (exists more, results (loop_body cfg st) = (results st ++ more)%list)
  /\ (exists more, trace (loop_body cfg st) = (trace st ++ more)%list)
  /\ visited st ⊆ visited (loop_body cfg st)
  /\ num_requests st <= num_requests (loop_body cfg st).
Proof.
  destruct (decide (to_visit st = [])) as [Hq|Hne].
  { rewrite loop_body_empty by assumption.
    repeat split; try (exists []; now rewrite app_nil_r); try reflexivity; try lia. }
  split; [|split; [|split; [|apply loop_body_num_requests]]].
  - iteration_cases st Hne; rewrite ?process_page_results; cbn zeta; cbn [results];
      eauto; exists []; now rewrite app_nil_r.
  - iteration_cases st Hne; rewrite ?process_page_trace; cbn zeta; cbn [trace];
      rewrite <- ?app_assoc; eauto; exists []; now rewrite app_nil_r.
  - iteration_cases st Hne; rewrite ?process_page_visited; cbn [visited]; set_solver.
Qed.

(** X15: what a run has gathered stays: after more iterations the results
    and the calls made so far are a prefix of the later ones, the visited
    set has lost nothing, and the counter has not gone down. *)
Theorem crawl_state_only_grows (n k : nat) (st : state) :
  (exists more, results (run cfg (n + k) st) = (results (run cfg n st) ++ more)%list)
  /\ (exists more, trace (run cfg (n + k) st) = (trace (run cfg n st) ++ more)%list)
  /\ visited (run cfg n st) ⊆ visited (run cfg (n + k) st)
  /\ num_requests (run cfg n st) <= num_requests (run cfg (n + k) st).
Proof.
  rewrite run_add. generalize (run cfg n st) as s. clear st n.
  induction k as [|k IH]; intros s; cbn [run].
  { repeat split; try (exists []; now rewrite app_nil_r); try reflexivity; try lia. }
  destruct (loop_cond cfg s).
  2: { repeat split; try (exists []; now rewrite app_nil_r); try reflexivity; try lia. }
  destruct (loop_body_grows s) as ((r1 & Hr1) & (t1 & Ht1) & Hv1 & Hn1).
  destruct (IH (loop_body cfg s)) as ((r2 & Hr2) & (t2 & Ht2) & Hv2 & Hn2).
  split; [exists (r1 ++ r2)%list; now rewrite Hr2, Hr1, app_assoc|].
  split; [exists (t1 ++ t2)%list; now rewrite Ht2, Ht1, app_assoc|].
  split; [now transitivity (visited (loop_body cfg s))|lia].
Qed.

Lemma find_links_no_fragment (html base_url : string) (links : list string) (l : string) :
  find_links html base_url = Some links -> l ∈ links -> contains "#" l = false.
Proof.
  unfold find_links. destruct (BeautifulSoup html) as [soup|]; [|discriminate].
  intros Heq Hin. injection Heq as <-.
  rewrite list_elem_of_In, dedup_In, <- list_elem_of_In, list_elem_of_omap in Hin.
  destruct Hin as (a & _ & Hl). apply link_of_anchor_spec in Hl as (href & _ & _ & _ & Hn).
  now apply (normalize_url_no_fragment_mark _ _ Hn).
Qed.

(** Where the entries that an iteration adds come from. *)
Lemma loop_body_new_entries st url referrer rest :
  to_visit st = (url, referrer) :: rest ->
  exists new,
    to_visit (loop_body cfg st) = (rest ++ new)%list
    /\ forall e, e ∈ new ->
         exists page html links link norm,
           e = (norm, Some page)
           /\ Discover page ∈ trace (loop_body cfg st)
           /\ find_links html page = Some links /\ link ∈ links
           /\ normalize_url (Some link) = Some norm
           /\ followed cfg ({[url]} ∪ visited st) page norm = true.
Proof.
  intros Hq0.
  assert (Hne : to_visit st <> []) by (rewrite Hq0; discriminate).
  pose proof (loop_body_iteration cfg st Hne) as Hit.
  destruct Hit as [u r q Hq Hseen|u r q Hq Hseen Hign|u r q Hq Hseen Hign Hfetch
                  |u r q html final_url status Hq Hseen Hign Hfetch Huse
                  |u r q html final_url status Hq Hseen Hign Hfetch Huse];
    rewrite Hq in Hq0; injection Hq0 as -> -> ->;
    try (exists []; cbn [to_visit]; rewrite app_nil_r; split; [reflexivity|];
         intros e He; inversion He).
  rewrite process_page_to_visit, process_page_trace. cbn zeta.
  cbn [to_visit visited trace].
  set (page := page_url url final_url).
  set (pt := classify_url page (scrape_url_globs cfg) (pagination_url_globs cfg)).
  assert (Hnone : exists new : list entry,
            rest = (rest ++ new)%list
            /\ forall e, e ∈ new -> False).
  { exists []. rewrite app_nil_r. split; [reflexivity|]. intros e He. inversion He. }
  destruct (find_links html page) as [links|] eqn:Hlinks.
  2: { destruct Hnone as (new & Hrest & Hnew). exists new.
       split; [destruct pt; exact Hrest|]. intros e He. destruct (Hnew e He). }
  destruct (page_type_eqb pt detail) eqn:Hpt.
  { destruct pt; try discriminate. destruct Hnone as (new & Hrest & Hnew). exists new.
    split; [exact Hrest|]. intros e He. destruct (Hnew e He). }
  exists (omap (new_entry cfg ({[url]} ∪ visited st) page) links). split.
  { destruct pt; [discriminate| |]; apply enqueue_links_omap. }
  intros e He. apply list_elem_of_omap in He as (link & Hin & Hnew).
  unfold new_entry in Hnew.
  destruct (normalize_url (Some link)) as [norm|] eqn:Hnorm; [|discriminate].
  destruct (followed cfg _ page norm) eqn:Hf; [|discriminate].
  injection Hnew as <-. exists page, html, links, link, norm.
  repeat split; try assumption.
  apply elem_of_app. right. apply elem_of_app. right.
  destruct pt; [discriminate| |]; apply list_elem_of_singleton; reflexivity.
Qed.

Lemma loop_body_fetched st url referrer rest :
  to_visit st = (url, referrer) :: rest ->
  fetched (trace (loop_body cfg st)) = fetched (trace st)
  \/ fetched (trace (loop_body cfg st)) = (fetched (trace st) ++ [url])%list.
Proof.
  intros Hq0.
  assert (Hne : to_visit st <> []) by (rewrite Hq0; discriminate).
  pose proof (loop_body_iteration cfg st Hne) as Hit.
  destruct Hit as [u r q Hq Hseen|u r q Hq Hseen Hign|u r q Hq Hseen Hign Hfetch
                  |u r q html final_url status Hq Hseen Hign Hfetch Huse
                  |u r q html final_url status Hq Hseen Hign Hfetch Huse];
    rewrite Hq in Hq0; injection Hq0 as -> -> ->;
    rewrite ?process_page_fetched; cbn [trace]; rewrite ?fetched_app; auto.
Qed.

Lemma seed_entries (urls : list string) (e : entry) :
  e ∈ seed urls ->
  exists s, s ∈ urls /\ normalize_url (Some s) = Some (fst e) /\ snd e = None.
Proof.
  unfold seed. intros He. apply list_elem_of_omap in He as (s & Hs & Hn).
  destruct (normalize_url (Some s)) as [norm|] eqn:Hnorm; [|discriminate].
  destruct (is_empty norm); [discriminate|]. injection Hn as <-. eauto.
Qed.

(** X16: every URL in the frontier and every URL handed to the fetch is
    not empty and holds no fragment mark. *)
Theorem no_fragment_is_ever_fetched (n : nat) :
  let st := run cfg n (init cfg) in
  Forall (fun e : entry => fst e <> "" /\ contains "#" (fst e) = false) (to_visit st)
  /\ Forall (fun u => u <> "" /\ contains "#" u = false) (fetched (trace st)).
Proof.
  cbn zeta.
  apply (run_invariant cfg (fun st =>
    Forall (fun e : entry => fst e <> "" /\ contains "#" (fst e) = false) (to_visit st)
    /\ Forall (fun u => u <> "" /\ contains "#" u = false) (fetched (trace st)))).
  - intros st [Hq Hf] Hc. apply loop_cond_true in Hc as [Hne _].
    destruct (to_visit st) as [|[url referrer] rest] eqn:Hst; [congruence|].
    inversion Hq as [|? ? Hhead Hrest]; subst. cbn [fst] in Hhead.
    destruct (loop_body_new_entries st url referrer rest Hst) as (new & Hnew & Horigin).
    split.
    + rewrite Hnew. apply Forall_app. split; [exact Hrest|].
      apply List.Forall_forall. intros e He. apply list_elem_of_In in He.
      destruct (Horigin e He) as (page & html & links & link & norm & -> & _ & _ & _ & Hn & _).
      cbn [fst]. split; [now apply (normalize_url_not_empty _ _ Hn)|].
      now apply (normalize_url_no_fragment_mark _ _ Hn).
    + destruct (loop_body_fetched st url referrer rest Hst) as [-> | ->]; [exact Hf|].
      apply Forall_app. split; [exact Hf|]. now repeat constructor.
  - cbn [init to_visit trace fetched omap]. split; [|constructor].
    apply List.Forall_forall. intros e He. apply list_elem_of_In in He.
    destruct (seed_entries _ _ He) as (s0 & _ & Hn & _).
    split; [now apply (normalize_url_not_empty _ _ Hn)|].
    now apply (normalize_url_no_fragment_mark _ _ Hn).
Qed.

(** X17: a frontier entry with a referrer was found on a page whose links
    were discovered in this run; its URL is not ignored, is a fixed point
    of the normalization, and either classifies as detail or pagination or
    lies on the network host of that page.  An entry without referrer is
    the normalization of a start URL. *)
Theorem frontier_entries_are_accounted_for (n : nat) (u : string) (r : option string) :
  (u, r) ∈ to_visit (run cfg n (init cfg)) ->
  match r with
  | Some page =>
      Discover page ∈ trace (run cfg n (init cfg))
      /\ should_ignore u (ignore_url_globs cfg) = false
      /\ normalize_url (Some u) = Some u
      /\ (classify_url u (scrape_url_globs cfg) (pagination_url_globs cfg) = unknown ->
          Urllib.netloc (Urllib.urlparse u) = Urllib.netloc (Urllib.urlparse page))
  | None => exists s, s ∈ start_urls cfg /\ normalize_url (Some s) = Some u
  end.
Proof.
  revert u r.
  apply (run_invariant cfg (fun st => forall u r, (u, r) ∈ to_visit st ->
    match r with
    | Some page =>
        Discover page ∈ trace st
        /\ should_ignore u (ignore_url_globs cfg) = false
        /\ normalize_url (Some u) = Some u
        /\ (classify_url u (scrape_url_globs cfg) (pagination_url_globs cfg) = unknown ->
            Urllib.netloc (Urllib.urlparse u) = Urllib.netloc (Urllib.urlparse page))
    | None => exists s, s ∈ start_urls cfg /\ normalize_url (Some s) = Some u
    end)).
  - intros st Hinv Hc u r Hin. apply loop_cond_true in Hc as [Hne _].
    destruct (to_visit st) as [|[url referrer] rest] eqn:Hst; [congruence|].
    destruct (loop_body_new_entries st url referrer rest Hst) as (new & Hnew & Horigin).
    rewrite Hnew in Hin. apply elem_of_app in Hin as [Hold|Hadd].
    + assert (Hin : (u, r) ∈ (url, referrer) :: rest) by (now apply list_elem_of_further).
      specialize (Hinv u r Hin). destruct r as [page|]; [|exact Hinv].
      destruct Hinv as (Hd & Hrest). split; [|exact Hrest].
      destruct (loop_body_grows st) as (_ & (more & ->) & _).
      apply elem_of_app. now left.
    + destruct (Horigin _ Hadd)
        as (page & html & links & link & norm & Heq & Hd & Hlinks & Hlink & Hn & Hf).
      injection Heq as -> ->. apply followed_iff in Hf as (_ & _ & Hign & Hclass).
      split; [exact Hd|]. split; [exact Hign|]. split.
      * rewrite <- Hn. apply normalize_url_idempotent_without_fragment.
        now apply (find_links_no_fragment html page links).
      * intros Hunk. destruct Hclass as [Hc|[Hc|[_ Hhost]]]; congruence.
  - intros u r Hin. cbn [init to_visit] in Hin.
    destruct (seed_entries _ _ Hin) as (s0 & Hs & Hn & Hr). cbn [fst snd] in Hn, Hr.
    subst r. eauto.
Qed.

Lemma parse_metadata_url (html url : string) (r : PageRecord) :
  parse_metadata html url = Some r -> rec_url r = url.
Proof.
  unfold parse_metadata. destruct (BeautifulSoup html); [|discriminate].
  intros Heq. now injection Heq as <-.
Qed.

(** X18: every record in the results carries the URL of a page for which
    the extraction was called in this run. *)
Theorem records_come_from_extraction (n : nat) (r : PageRecord) :
  r ∈ results (run cfg n (init cfg)) ->
  Extract (rec_url r) ∈ trace (run cfg n (init cfg)).
Proof.
  revert r.
  apply (run_invariant cfg (fun st => forall r, r ∈ results st ->
                                                Extract (rec_url r) ∈ trace st)).
  - intros st Hinv Hc r Hin. apply loop_cond_true in Hc as [Hne _].
    assert (Hold : r ∈ results st -> Extract (rec_url r) ∈ trace (loop_body cfg st)).
    { intros Hr. destruct (loop_body_grows st) as (_ & (more & ->) & _).
      apply elem_of_app. left. now apply Hinv. }
    iteration_cases st Hne; try (now apply Hold).
    rewrite process_page_results in Hin. rewrite process_page_trace.
    cbn zeta in *. cbn [results trace] in *.
    apply elem_of_app in Hin as [Hin|Hin].
    + rewrite <- app_assoc. apply elem_of_app. left. now apply Hinv.
    + destruct (is_content_page cfg _); [|inversion Hin].
      destruct (parse_metadata html _) as [meta|] eqn:Hmeta; [|inversion Hin].
      apply list_elem_of_singleton in Hin. subst r.
      rewrite (parse_metadata_url _ _ _ Hmeta).
      apply elem_of_app. right. apply elem_of_app. left.
      apply list_elem_of_singleton. reflexivity.
  - intros r Hin. inversion Hin.
Qed.

Lemma frontier_urls_step (st : state) :
  to_visit st <> [] ->
  Forall (fun e : entry => fst e <> "" /\ contains "#" (fst e) = false) (to_visit st) ->
  Forall (fun e : entry => fst e <> "" /\ contains "#" (fst e) = false)
    (to_visit (loop_body cfg st)).
Proof.
  intros Hne Hq.
  destruct (to_visit st) as [|[url referrer] rest] eqn:Hst; [congruence|].
  inversion Hq as [|? ? Hhead Hrest]; subst.
  destruct (loop_body_new_entries st url referrer rest Hst) as (new & Hnew & Horigin).
  rewrite Hnew. apply Forall_app. split; [exact Hrest|].
  apply List.Forall_forall. intros e He. apply list_elem_of_In in He.
  destruct (Horigin e He) as (page & html & links & link & norm & -> & _ & _ & _ & Hn & _).
  cbn [fst]. split; [now apply (normalize_url_not_empty _ _ Hn)|].
  now apply (normalize_url_no_fragment_mark _ _ Hn).
Qed.

Lemma page_url_good (url final_url : string) :
  url <> "" /\ contains "#" url = false ->
  page_url url final_url <> "" /\ contains "#" (page_url url final_url) = false.
Proof.
  intros Hurl. unfold page_url.
  destruct (normalize_url (Some final_url)) as [n|] eqn:Hn; [|exact Hurl].
  destruct (is_empty n); [exact Hurl|].
  split; [now apply (normalize_url_not_empty _ _ Hn)|].
  now apply (normalize_url_no_fragment_mark _ _ Hn).
Qed.

(** X19: the URL of every record in the results is not empty and holds no
    fragment mark. *)
Theorem record_urls_hold_no_fragment (n : nat) :
  Forall (fun r => rec_url r <> "" /\ contains "#" (rec_url r) = false)
    (results (run cfg n (init cfg))).
Proof.
  apply (run_invariant cfg (fun st =>
    Forall (fun e : entry => fst e <> "" /\ contains "#" (fst e) = false) (to_visit st)
    /\ Forall (fun r => rec_url r <> "" /\ contains "#" (rec_url r) = false) (results st))).
  - intros st [Hfront Hrecs] Hc. apply loop_cond_true in Hc as [Hne _].
    split; [now apply frontier_urls_step|].
    iteration_cases st Hne; cbn [results]; try exact Hrecs.
    rewrite process_page_results. cbn zeta. cbn [results].
    apply Forall_app. split; [exact Hrecs|].
    destruct (is_content_page cfg _); [|constructor].
    destruct (parse_metadata html _) as [meta|] eqn:Hmeta; [|constructor].
    constructor; [|constructor]. rewrite (parse_metadata_url _ _ _ Hmeta).
    apply page_url_good. rewrite Hq in Hfront. inversion Hfront; subst. assumption.
  - cbn [init to_visit results]. split; [|constructor].
    apply List.Forall_forall. intros e He. apply list_elem_of_In in He.
    destruct (seed_entries _ _ He) as (s0 & _ & Hn & _).
    split; [now apply (normalize_url_not_empty _ _ Hn)|].
    now apply (normalize_url_no_fragment_mark _ _ Hn).
Qed.

Lemma omap_length_le {A B} (f : A -> option B) (l : list A) :
  (length (omap f l) <= length l)%nat.
Proof.
  induction l as [|x l IH]; [reflexivity|].
  change (omap f (x :: l))
    with (match f x with Some y => y :: omap f l | None => omap f l end).
  destruct (f x); cbn [length]; lia.
Qed.

Lemma seed_length (urls : list string) : (length (seed urls) <= length urls)%nat.
Proof. apply omap_length_le. Qed.

Lemma crawl_loop_offline (fuel : nat) : forall st,
  (forall history url, fetch_html history url = None) ->
  (length (to_visit st) <= fuel)%nat ->
  exists st',
    crawl_loop cfg fuel st = Some st'
    /\ results st' = results st /\ num_requests st' = num_requests st.
Proof.
  induction fuel as [|fuel IH]; intros st Hoff Hlen.
  - exists st. cbn [crawl_loop].
    destruct (loop_cond cfg st) eqn:Hc; [|now repeat split].
    apply loop_cond_true in Hc as [Hne _].
    destruct (to_visit st); [congruence|cbn [length] in Hlen; lia].
  - cbn [crawl_loop]. destruct (loop_cond cfg st) eqn:Hc; [|exists st; now repeat split].
    apply loop_cond_true in Hc as [Hne _].
    assert (Hstep : length (to_visit (loop_body cfg st)) = pred (length (to_visit st))
                    /\ results (loop_body cfg st) = results st
                    /\ num_requests (loop_body cfg st) = num_requests st).
    { iteration_cases st Hne; rewrite Hq; cbn [to_visit results num_requests length];
        try (now repeat split); rewrite Hoff in Hfetch; discriminate. }
    destruct Hstep as (Hl & Hr & Hn).
    destruct (IH (loop_body cfg st) Hoff) as (st' & Hrun & Hr' & Hn'); [lia|].
    exists st'. split; [exact Hrun|]. split; congruence.
Qed.

(** X20: when every fetch raises, one pass over the start URLs ends the
    crawl: with as much fuel as there are start URLs it returns no record,
    and the counter is still zero. *)
Theorem crawl_with_failing_transport :
  (forall history url, fetch_html history url = None) ->
  crawl cfg (length (start_urls cfg)) = Some []
  /\ option_map num_requests (crawl_loop cfg (length (start_urls cfg)) (init cfg)) = Some 0.
Proof.
  intros Hoff.
  destruct (crawl_loop_offline (length (start_urls cfg)) (init cfg) Hoff)
    as (st' & Hrun & Hr & Hn).
  { cbn [init to_visit]. apply seed_length. }
  unfold crawl. rewrite Hrun. cbn [option_map]. now rewrite Hr, Hn.
Qed.

End CrawlMore.

(** ** Command line, logger and output directory *)

Section CommandLine.

Import PyStr.

(** X21: however often [build_logger] is called, the logger has one handler
    if it had none before, and keeps the ones it had; the level is that of
    the last call. *)
Theorem build_logger_adds_one_handler (v1 v2 : Z) (log : Logger) :
  log_handlers (build_logger v2 (build_logger v1 log))
  = log_handlers (build_logger v1 log)
  /\ (log_handlers log = [] -> length (log_handlers (build_logger v1 log)) = 1%nat)
  /\ (log_handlers log <> [] -> log_handlers (build_logger v1 log) = log_handlers log)
  /\ log_level (build_logger v2 (build_logger v1 log)) = log_level (build_logger v2 log).
Proof.
  unfold build_logger. cbn [log_handlers log_level].
  destruct (log_handlers log) as [|h hs]; repeat split; try reflexivity; congruence.
Qed.

(** X22: more verbosity never makes the logger quieter: the level for a
    larger verbosity is at most the level for a smaller one, it is WARNING
    for zero and below, and DEBUG from two on. *)
Theorem build_logger_level_is_antitone (v v' : Z) (log log' : Logger) :
  v <= v' ->
  log_level (build_logger v' log') <= log_level (build_logger v log)
  /\ (v <= 0 -> log_level (build_logger v log) = WARNING)
  /\ (2 <= v -> log_level (build_logger v log) = DEBUG).
Proof.
  intros Hv. unfold build_logger, WARNING, INFO, DEBUG. cbn [log_level].
  repeat split;
    repeat match goal with
           | |- context [if ?b then _ else _] => destruct b eqn:?
           end; lia.
Qed.

Lemma crawl_not_entered `{Externals} (cfg : CrawlConfig) (fuel : nat) :
  loop_cond cfg (init cfg) = false -> crawl cfg fuel = Some [].
Proof.
  intros Hc. unfold crawl. destruct fuel; cbn [crawl_loop]; now rewrite Hc.
Qed.

(** X23: an empty [--out] leaves the output file of the configuration,
    while a [--max] of zero or less is taken as given: the crawl then
    returns no record. *)
Theorem max_override_of_zero_is_honoured `{Externals}
    (cfg : CrawlConfig) (out : option string) (m : Z) (fuel : nat) :
  m <= 0 ->
  output_file (apply_args cfg (Some "") (Some m)) = output_file cfg
  /\ max_requests_per_crawl (apply_args cfg out (Some m)) = m
  /\ crawl (apply_args cfg out (Some m)) fuel = Some [].
Proof.
  intros Hm. split; [reflexivity|]. split; [reflexivity|].
  apply crawl_not_entered. unfold loop_cond, apply_args.
  cbn [max_requests_per_crawl init num_requests].
  destruct (0 <? m) eqn:Hlt; [lia|]. now rewrite andb_false_r.
Qed.

Lemma loop_body_output_file `{Externals} (cfg : CrawlConfig) (o : string) (st : state) :
  loop_body (mkCrawlConfig (start_urls cfg) (scrape_url_globs cfg)
               (pagination_url_globs cfg) (ignore_url_globs cfg)
               (max_requests_per_crawl cfg) o) st
  = loop_body cfg st.
Proof. reflexivity. Qed.

Lemma crawl_loop_output_file `{Externals} (cfg : CrawlConfig) (o : string) (fuel : nat) :
  forall st,
  crawl_loop (mkCrawlConfig (start_urls cfg) (scrape_url_globs cfg)
                (pagination_url_globs cfg) (ignore_url_globs cfg)
                (max_requests_per_crawl cfg) o) fuel st
  = crawl_loop cfg fuel st.
Proof.
  induction fuel as [|fuel IH]; intros st; cbn [crawl_loop];
    change (loop_cond (mkCrawlConfig (start_urls cfg) (scrape_url_globs cfg)
                         (pagination_url_globs cfg) (ignore_url_globs cfg)
                         (max_requests_per_crawl cfg) o) st)
      with (loop_cond cfg st);
    destruct (loop_cond cfg st); try reflexivity.
  now rewrite loop_body_output_file, IH.
Qed.

(** X24: the output file plays no part in the crawl: overriding it on the
    command line gives the same records. *)
Theorem out_override_leaves_the_crawl `{Externals}
    (cfg : CrawlConfig) (out : option string) (fuel : nat) :
  crawl (apply_args cfg out None) fuel = crawl cfg fuel.
Proof.
  unfold apply_args. destruct (truthy out); [|reflexivity].
  destruct out as [o|]; [|reflexivity].
  unfold crawl. now rewrite <- (crawl_loop_output_file cfg o fuel (init cfg)).
Qed.

Lemma rsplit_keep_none (c : ascii) (s : string) :
  Urllib.rsplit_keep c s = None <-> contains c s = false.
Proof.
  induction s as [|d s IH]; cbn [Urllib.rsplit_keep contains]; [tauto|].
  destruct (Urllib.rsplit_keep c s) as [[a b]|].
  - destruct (Ascii.eqb c d); [split; discriminate|].
    split; [discriminate|]. intros Hs. now apply IH in Hs.
  - destruct (Ascii.eqb c d); [split; discriminate|]. tauto.
Qed.

Lemma rsplit_keep_head (c : ascii) (s a b : string) :
  Urllib.rsplit_keep c s = Some (a, b) -> is_empty a = false.
Proof.
  destruct s as [|d s]; cbn [Urllib.rsplit_keep]; [discriminate|].
  destruct (Urllib.rsplit_keep c s) as [[a' b']|].
  - intros Heq. now injection Heq as <- <-.
  - destruct (Ascii.eqb c d); [|discriminate]. intros Heq. now injection Heq as <- <-.
Qed.

Lemma rstrip_char_empty (c : ascii) (s : string) :
  is_empty (rstrip_char c s) = true -> Urllib.all_chars (Ascii.eqb c) s = true.
Proof.
  induction s as [|d s IH]; cbn [rstrip_char Urllib.all_chars]; [trivial|].
  destruct (Ascii.eqb c d); cbn [andb]; [|discriminate].
  destruct (is_empty (rstrip_char c s)) eqn:He; [auto|discriminate].
Qed.

(** X25: [ensure_dir] asks for the creation of the empty path exactly when
    the path holds no slash, as a bare file name does. *)
Theorem ensure_dir_of_bare_file_name {A} (makedirs : string -> A) (path : string) :
  (contains "/" path = false -> ensure_dir makedirs path = makedirs "")
  /\ (dirname path = "" <-> contains "/" path = false).
Proof.
  assert (Hiff : dirname path = "" <-> contains "/" path = false).
  { unfold dirname. rewrite <- rsplit_keep_none.
    destruct (Urllib.rsplit_keep "/" path) as [[h t]|] eqn:Hr; [|tauto].
    pose proof (rsplit_keep_head _ _ _ _ Hr) as Hh. rewrite Hh. cbn [negb andb].
    split; [|discriminate]. intros Hd. exfalso.
    destruct (Urllib.all_chars (Ascii.eqb "/") h) eqn:Hall; cbn [negb] in Hd.
    - subst h. discriminate.
    - assert (He : is_empty (rstrip_char "/" h) = true) by now rewrite Hd.
      apply rstrip_char_empty in He. congruence. }
  split; [|exact Hiff]. intros Hp. unfold ensure_dir. now rewrite (proj2 Hiff Hp).
Qed.

End CommandLine.

(** ** Closed examples for the further properties *)

(** A link with a fragment comes back without it. *)
Lemma normalize_url_strips_fragment_witness :
  normalize_url (Some "http://x.com/a#frag") = Some "http://x.com/a"
  /\ "http://x.com/a" <> "" /\ PyStr.contains "#" "http://x.com/a" = false.
Proof.
  split; [reflexivity|].
  exact (normalize_url_strips_fragment (Some "http://x.com/a#frag") "http://x.com/a" eq_refl).
Defined.

(** A host and path without scheme are rejected. *)
Lemma normalize_url_rejects_schemeless_witness :
  PyStr.contains ":" "example.com/a" = false
  /\ PyStr.contains "[" "example.com/a" = false
  /\ PyStr.contains "]" "example.com/a" = false
  /\ normalize_url (Some "example.com/a") = None.
Proof.
  split; [reflexivity|]. split; [reflexivity|]. split; [reflexivity|].
  exact (normalize_url_rejects_schemeless "example.com/a" eq_refl eq_refl eq_refl).
Defined.

(** The bare home page and its root path give one key. *)
Lemma normalize_url_bare_host_witness :
  Urllib.all_chars host_char "example.com" = true
  /\ normalize_url (Some "http://example.com") = Some "http://example.com/"
  /\ normalize_url (Some "http://example.com/") = Some "http://example.com/".
Proof.
  split; [reflexivity|].
  exact (normalize_url_bare_host_collapses "http" "example.com" (or_introl eq_refl) eq_refl).
Defined.

(** A text with a tab and blanks, normalized. *)
Lemma clean_whitespace_shape_witness :
  _clean_whitespace (Some (" a " ++ String (ascii_of_nat 9) " b ")) = Some "a b"
  /\ Urllib.all_chars plain_char "a b" = true
  /\ no_adjacent_spaces "a b" = true
  /\ PyStr.strip "a b" = "a b".
Proof.
  split; [reflexivity|].
  exact (clean_whitespace_result_shape
           (Some (" a " ++ String (ascii_of_nat 9) " b ")) "a b" eq_refl).
Defined.

(** The record of the article page. *)
Lemma record_heading_and_article_witness :
  exists r,
    @parse_metadata Demo.world "article" Demo.article_1 = Some r
    /\ rec_url r = Demo.article_1
    /\ rec_heading r <> Some "" /\ rec_article r <> Some "".
Proof.
  eexists. split; [reflexivity|].
  exact (@record_heading_and_article_never_empty Demo.world "article" Demo.article_1
           _ eq_refl).
Defined.

(** A page with a level-1 heading only: the title is the heading. *)
Lemma title_falls_back_witness :
  exists r,
    @parse_metadata (Demo.single_page None Demo.heading_soup) "page" Demo.about = Some r
    /\ rec_title r = Some "Only heading"
    /\ rec_title r = rec_heading r.
Proof.
  destruct (@title_falls_back_to_heading (Demo.single_page None Demo.heading_soup)
              "page" Demo.about Demo.heading_soup
              (Tag "h1" [] [NavigableString " Only  heading "])
              eq_refl eq_refl eq_refl eq_refl) as (r & Hrec & Htitle & Hsame).
  exists r. split; [exact Hrec|]. split; [|exact Hsame].
  rewrite Htitle. reflexivity.
Defined.

(** The links of the home page, each once. *)
Lemma find_links_witness :
  bracket_free Demo.home = true
  /\ hrefs_bracket_free Demo.home_soup = true
  /\ exists links,
       @find_links Demo.world "home" Demo.home = Some links /\ NoDup links
       /\ links = [Demo.article_1; "http://example.com/page/2"; "http://other.org/x";
                   Demo.about; "http://example.com/private/key"].
Proof.
  split; [reflexivity|]. split; [reflexivity|].
  destruct (@find_links_lists_each_target_once Demo.world "home" Demo.home
              Demo.home_soup eq_refl eq_refl eq_refl) as (links & Hlinks & Hnd & _).
  exists links. split; [exact Hlinks|]. split; [exact Hnd|].
  vm_compute in Hlinks. now injection Hlinks as <-.
Defined.

(** The one link of the page with two fragment variants. *)
Lemma find_links_fragment_free_witness :
  @find_links Demo.world "fragments" "http://x.com/" = Some ["http://x.com/a"]
  /\ "http://x.com/a" <> "" /\ PyStr.contains "#" "http://x.com/a" = false
  /\ normalize_url (normalize_url (Some "http://x.com/a"))
     = normalize_url (Some "http://x.com/a").
Proof.
  split; [reflexivity|].
  apply (@find_links_gives_fragment_free_links Demo.world "fragments" "http://x.com/"
           ["http://x.com/a"] "http://x.com/a" eq_refl).
  constructor.
Defined.

(** The same patterns in another order, one of them twice. *)
Lemma pattern_order_witness :
  @classify_url Demo.world Demo.article_1
    ["http://example.com/articles/*"; "http://example.com/page/*"] []
  = @classify_url Demo.world Demo.article_1
      ["http://example.com/page/*"; "http://example.com/articles/*";
       "http://example.com/page/*"] [].
Proof.
  apply (@pattern_order_is_irrelevant Demo.world Demo.article_1
           ["http://example.com/articles/*"; "http://example.com/page/*"]
           ["http://example.com/page/*"; "http://example.com/articles/*";
            "http://example.com/page/*"] [] [] [] []);
    intros p; rewrite ?elem_of_cons, ?elem_of_nil; tauto.
Defined.

(** The scrape pattern of the concrete configuration has single stars. *)
Lemma patterns_without_double_star_witness :
  Forall (fun p => has_double_star p = false) (scrape_url_globs Demo.cfg)
  /\ @match_any_glob Demo.world Demo.article_1 (scrape_url_globs Demo.cfg)
     = existsb (@fnmatch Demo.world Demo.article_1) (scrape_url_globs Demo.cfg).
Proof.
  assert (Hall : Forall (fun p => has_double_star p = false) (scrape_url_globs Demo.cfg))
    by (repeat constructor).
  split; [exact Hall|].
  exact (@patterns_without_double_star_are_kept Demo.world Demo.article_1 _ Hall).
Defined.

(** The crawl of the concrete site returns one record under a budget of
    five. *)
Lemma crawl_budget_records_witness :
  0 <= max_requests_per_crawl Demo.cfg
  /\ exists recs,
       @crawl Demo.world Demo.cfg 10 = Some recs
       /\ Z.of_nat (length recs) <= 5.
Proof.
  assert (Hmax : 0 <= max_requests_per_crawl Demo.cfg) by (cbn; lia).
  split; [exact Hmax|].
  destruct (@crawl Demo.world Demo.cfg 10) as [recs|] eqn:Hc.
  - exists recs. split; [reflexivity|].
    exact (@crawl_returns_at_most_budget_records Demo.world Demo.cfg 10 recs Hmax Hc).
  - vm_compute in Hc. discriminate.
Defined.

(** The concrete site under a budget of zero. *)
Lemma crawl_without_budget_witness :
  max_requests_per_crawl (apply_args Demo.cfg None (Some 0)) <= 0
  /\ @crawl Demo.world (apply_args Demo.cfg None (Some 0)) 7 = Some [].
Proof.
  assert (Hmax : max_requests_per_crawl (apply_args Demo.cfg None (Some 0)) <= 0)
    by (cbn; lia).
  split; [exact Hmax|].
  exact (proj1 (@crawl_without_budget_or_seeds Demo.world
                  (apply_args Demo.cfg None (Some 0)) 7 (or_introl Hmax))).
Defined.

(** After the home page the article is in the frontier, found on the home
    page. *)
Lemma frontier_entries_witness :
  (Demo.article_1, Some Demo.home) ∈ to_visit (@run Demo.world Demo.cfg 1 (init Demo.cfg))
  /\ Discover Demo.home ∈ trace (@run Demo.world Demo.cfg 1 (init Demo.cfg))
  /\ normalize_url (Some Demo.article_1) = Some Demo.article_1.
Proof.
  assert (Hin : (Demo.article_1, Some Demo.home)
                ∈ to_visit (@run Demo.world Demo.cfg 1 (init Demo.cfg)))
    by (vm_compute; constructor).
  split; [exact Hin|].
  destruct (@frontier_entries_are_accounted_for Demo.world Demo.cfg 1
              Demo.article_1 (Some Demo.home) Hin) as (Hd & _ & Hfix & _).
  now split.
Defined.

(** The record of the article was extracted in the run. *)
Lemma records_come_from_extraction_witness :
  let r := mkPageRecord Demo.article_1 (Some "First post") None None (Some "Hello world") in
  r ∈ results (@run Demo.world Demo.cfg 2 (init Demo.cfg))
  /\ Extract Demo.article_1 ∈ trace (@run Demo.world Demo.cfg 2 (init Demo.cfg)).
Proof.
  cbn zeta.
  assert (Hin : mkPageRecord Demo.article_1 (Some "First post") None None
                  (Some "Hello world")
                ∈ results (@run Demo.world Demo.cfg 2 (init Demo.cfg)))
    by (vm_compute; constructor).
  split; [exact Hin|].
  exact (@records_come_from_extraction Demo.world Demo.cfg 2 _ Hin).
Defined.

(** A transport that always raises: one pass, no record. *)
Lemma crawl_with_failing_transport_witness :
  (forall history url,
     @fetch_html (Demo.single_page None Demo.home_soup) history url = None)
  /\ @crawl (Demo.single_page None Demo.home_soup) Demo.cfg_404 2 = Some [].
Proof.
  assert (Hoff : forall history url,
            @fetch_html (Demo.single_page None Demo.home_soup) history url = None)
    by (intros; reflexivity).
  split; [exact Hoff|].
  exact (proj1 (@crawl_with_failing_transport (Demo.single_page None Demo.home_soup)
                  Demo.cfg_404 Hoff)).
Defined.

(** A fresh logger gets its one handler. *)
Lemma build_logger_witness :
  log_handlers (mkLogger 0 []) = []
  /\ length (log_handlers (build_logger 2 (build_logger 1 (mkLogger 0 [])))) = 1%nat.
Proof.
  split; [reflexivity|].
  destruct (build_logger_adds_one_handler 1 2 (mkLogger 0 [])) as (Hsame & Hone & _).
  rewrite Hsame. exact (Hone eq_refl).
Defined.

(** [-vv] against [-v]. *)
Lemma build_logger_level_witness :
  1 <= 2
  /\ log_level (build_logger 2 (mkLogger 0 [])) <= log_level (build_logger 1 (mkLogger 0 [])).
Proof.
  assert (Hv : 1 <= 2) by lia.
  split; [exact Hv|].
  exact (proj1 (build_logger_level_is_antitone 1 2 (mkLogger 0 []) (mkLogger 0 []) Hv)).
Defined.

(** [--max 0] on the concrete site. *)
Lemma max_override_witness :
  0 <= 0
  /\ @crawl Demo.world (apply_args Demo.cfg (Some "out.json") (Some 0)) 3 = Some [].
Proof.
  assert (Hm : 0 <= 0) by lia.
  split; [exact Hm|].
  exact (proj2 (proj2 (@max_override_of_zero_is_honoured Demo.world Demo.cfg
                         (Some "out.json") 0 3 Hm))).
Defined.

(** A bare file name has the empty directory part. *)
Lemma ensure_dir_witness :
  PyStr.contains "/" "output.json" = false
  /\ ensure_dir (fun d : string => d) "output.json" = "".
Proof.
  split; [reflexivity|].
  exact (proj1 (ensure_dir_of_bare_file_name (fun d : string => d) "output.json") eq_refl).
Defined.
